(** * NBA analytics dashboard: cleaning and aggregation pipeline of [app.py]

    The script loads five tables, cleans two of them and derives the
    views shown by the dashboard.  This development embeds the cleaning
    section (lines 37-51), the feature engineering section (lines 59-113)
    and the ranking table of the last tab (lines 223-224), and proves the
    properties of the specification about them.

    A numeric column holds int64 or float64 values.  Floats are IEEE-754
    binary64 values ([spec_float] at precision 53) and a missing value
    (NaN in pandas) is [S754_nan]; int64 values are integers read modulo
    2^64.  The score columns of the games table keep their dtype, since
    line 59 adds them; the other numeric columns are only averaged, which
    pandas does in float64, and are kept as floats. *)

From Stdlib Require Import ZArith List String Ascii Bool Lia.
From Stdlib Require Import Permutation Sorted.
From Stdlib Require Import SpecFloat DecimalString.
Import ListNotations.

Local Open Scope Z_scope.
Local Open Scope string_scope.
Local Open Scope list_scope.

(* ================================================================== *)
(** ** Binary64 arithmetic *)
(* ================================================================== *)

Module Float64.

Definition prec : Z := 53.
Definition emax : Z := 1024.

Definition float : Type := spec_float.

Definition nan : float := S754_nan.
Definition zero : float := S754_zero false.

Definition add : float -> float -> float := SFadd prec emax.
Definition sub : float -> float -> float := SFsub prec emax.
Definition div : float -> float -> float := SFdiv prec emax.

(** Conversion of an integer, rounded to nearest even (exact below 2^53). *)
Definition of_Z (z : Z) : float := binary_normalize prec emax z 0 false.

Definition of_nat (n : nat) : float := of_Z (Z.of_nat n).

(** pandas' [isna] on a float cell. *)
Definition isna (x : float) : bool :=
  match x with
  | S754_nan => true
  | _ => false
  end.

Definition notna (x : float) : bool := negb (isna x).

Definition is_finite (x : float) : bool :=
  match x with
  | S754_zero _ | S754_finite _ _ _ => true
  | _ => false
  end.

(** The value [(-1)^neg * d * 10^e] rounded once, to nearest even: the
    result of reading a decimal literal with digits [d] and decimal
    exponent [e].  For a negative exponent the quotient of the two
    integers is rounded by the division of the format. *)
Definition of_decimal (neg : bool) (d : Z) (e : Z) : float :=
  match d with
  | Zpos p =>
      match e with
      | Zneg k =>
          div (S754_finite neg p 0)
              (S754_finite false (Pos.pow 10 k) 0)
      | _ => binary_normalize prec emax
               (cond_Zopp neg (Zpos p * 10 ^ e)) 0 neg
      end
  | _ => S754_zero neg
  end.

End Float64.

Import Float64.

(* ================================================================== *)
(** ** Python's [float(str)] and [str.split] *)
(* ================================================================== *)

(** Exceptions raised by the embedded code, and computations that may
    raise. *)
Inductive exn : Type :=
  | ValueError.

Inductive result (A : Type) : Type :=
  | Ok (a : A)
  | Raise (e : exn).

Arguments Ok {A} a.
Arguments Raise {A} e.

Definition bind {A B : Type} (m : result A) (k : A -> result B) : result B :=
  match m with
  | Ok a => k a
  | Raise e => Raise e
  end.

Declare Scope result_scope.
Delimit Scope result_scope with result.
Notation "x <- m ;; k" := (bind m (fun x => k))
  (at level 61, m at next level, right associativity) : result_scope.
Local Open Scope result_scope.

(** Texts are ASCII: the digits, blanks and letters that [float] accepts
    beyond ASCII are left out. *)
Module PyFloat.

(** The blanks that [float] strips from both ends of an ASCII text: tab,
    line feed, vertical tab, form feed, carriage return and space. *)
Definition is_space (c : ascii) : bool :=
  let n := nat_of_ascii c in
  ((9 <=? n) && (n <=? 13) || (n =? 32))%nat.

Definition lstrip (cs : list ascii) : list ascii :=
  (fix go (l : list ascii) : list ascii :=
     match l with
     | c :: r => if is_space c then go r else l
     | [] => []
     end) cs.

Definition strip (cs : list ascii) : list ascii :=
  rev (lstrip (rev (lstrip cs))).

Definition digit_of (c : ascii) : option Z :=
  let n := nat_of_ascii c in
  if ((48 <=? n) && (n <=? 57))%nat then Some (Z.of_nat n - 48) else None.

Definition to_lower (c : ascii) : ascii :=
  let n := nat_of_ascii c in
  if ((65 <=? n) && (n <=? 90))%nat then ascii_of_nat (n + 32) else c.

(** [sign ::= "+" | "-"], optional. *)
Definition sign (cs : list ascii) : bool * list ascii :=
  match cs with
  | "+"%char :: r => (false, r)
  | "-"%char :: r => (true, r)
  | _ => (false, cs)
  end.

(** The tail [(["_"] digit)*] of a digit part. *)
Fixpoint more_digits (cs : list ascii) : list Z * list ascii :=
  match cs with
  | c :: r =>
      match digit_of c with
      | Some d => let (ds, r') := more_digits r in (d :: ds, r')
      | None =>
          if Ascii.eqb c "_" then
            match r with
            | c2 :: r2 =>
                match digit_of c2 with
                | Some d => let (ds, r') := more_digits r2 in (d :: ds, r')
                | None => ([], cs)
                end
            | [] => ([], cs)
            end
          else ([], cs)
      end
  | [] => ([], [])
  end.

(** [digitpart ::= digit (["_"] digit)*] *)
Definition digitpart (cs : list ascii) : option (list Z * list ascii) :=
  match cs with
  | c :: r =>
      match digit_of c with
      | Some d => let (ds, r') := more_digits r in Some (d :: ds, r')
      | None => None
      end
  | [] => None
  end.

(** [number ::= [digitpart] "." digitpart | digitpart ["."]]: the digits
    before the point, the digits after it, and what is left. *)
Definition number (cs : list ascii)
  : option (list Z * list Z * list ascii) :=
  match digitpart cs with
  | Some (ip, r) =>
      match r with
      | "."%char :: r1 =>
          match digitpart r1 with
          | Some (fp, r2) => Some (ip, fp, r2)
          | None => Some (ip, [], r1)
          end
      | _ => Some (ip, [], r)
      end
  | None =>
      match cs with
      | "."%char :: r1 =>
          match digitpart r1 with
          | Some (fp, r2) => Some ([], fp, r2)
          | None => None
          end
      | _ => None
      end
  end.

Definition digits_value (ds : list Z) : Z :=
  fold_left (fun acc d => 10 * acc + d) ds 0.

(** [exponent ::= ("e" | "E") [sign] digitpart], optional, up to the
    end of the text. *)
Definition exponent (cs : list ascii) : option Z :=
  match cs with
  | [] => Some 0
  | c :: r =>
      if Ascii.eqb (to_lower c) "e" then
        let (neg, r1) := sign r in
        match digitpart r1 with
        | Some (ds, []) => Some (cond_Zopp neg (digits_value ds))
        | _ => None
        end
      else None
  end.

Definition is_word (w : string) (cs : list ascii) : bool :=
  if list_eq_dec ascii_dec (map to_lower cs) (list_ascii_of_string w)
  then true else false.

(** [float(s)] for a [str] argument, the nearest binary64 value of the
    literal; [None] stands for [ValueError]. *)
Definition py_float (s : string) : option float :=
  let (neg, body) := sign (strip (list_ascii_of_string s)) in
  if is_word "inf" body || is_word "infinity" body then
    Some (S754_infinity neg)
  else if is_word "nan" body then Some S754_nan
  else
    match number body with
    | Some (ip, fp, r) =>
        match exponent r with
        | Some e =>
            Some (of_decimal neg (digits_value (ip ++ fp))
                             (e - Z.of_nat (List.length fp)))
        | None => None
        end
    | None => None
    end.

(** [float(s)] as a computation. *)
Definition float_of_str (s : string) : result float :=
  match py_float s with
  | Some x => Ok x
  | None => Raise ValueError
  end.

End PyFloat.

Module PyStr.

(** [c in s] for a one-character [c]. *)
Fixpoint contains (c : ascii) (s : string) : bool :=
  match s with
  | EmptyString => false
  | String a r => Ascii.eqb a c || contains c r
  end.

(** [s.split(sep)] for a one-character separator: the pieces between
    every two occurrences. *)
Fixpoint split (sep : ascii) (s : string) : list string :=
  match s with
  | EmptyString => [EmptyString]
  | String a r =>
      if Ascii.eqb a sep then EmptyString :: split sep r
      else
        match split sep r with
        | p :: ps => String a p :: ps
        | [] => [String a EmptyString]
        end
  end.

(** [s.split(sep, 1)] when [sep] occurs: the text before the first
    occurrence and the text after it. *)
Fixpoint split_first (sep : ascii) (s : string) : option (string * string) :=
  match s with
  | EmptyString => None
  | String a r =>
      if Ascii.eqb a sep then Some (EmptyString, r)
      else
        match split_first sep r with
        | Some (p, q) => Some (String a p, q)
        | None => None
        end
  end.

End PyStr.

Import PyFloat PyStr.

(* ================================================================== *)
(** ** The five tables *)
(* ================================================================== *)

(** A cell as [read_csv] delivers it in a column that is cleaned later: a
    string, a float (NaN when the field is empty) or an integer of an
    int64 column. *)
Inductive cell : Type :=
  | CStr (s : string)
  | CNum (x : float)
  | CInt (z : Z).

(** A number of a numeric column: of an int64 column or of a float64
    column.  The integer [z] stands for the int64 value [wrap64 z]. *)
Inductive num : Type :=
  | Int (z : Z)
  | Flt (x : float).

(** The int64 value with the bits of [z]: int64 arithmetic wraps around. *)
Definition wrap64 (z : Z) : Z := (z + 2 ^ 63) mod 2 ^ 64 - 2 ^ 63.

Definition is_int (n : num) : bool :=
  match n with
  | Int _ => true
  | Flt _ => false
  end.

(** The cast to float64, as [astype(float64)] and mixed arithmetic do it. *)
Definition as_float (n : num) : float :=
  match n with
  | Int z => of_Z (wrap64 z)
  | Flt x => x
  end.

(** pandas' [isna] on a number: an int64 value is never null. *)
Definition num_isna (n : num) : bool :=
  match n with
  | Int _ => false
  | Flt x => isna x
  end.

(** [a + b] on two cells of numeric columns: in int64 when both columns
    are, in float64 otherwise. *)
Definition num_add (a b : num) : num :=
  match a, b with
  | Int x, Int y => Int (wrap64 (x + y))
  | _, _ => Flt (add (as_float a) (as_float b))
  end.

(** Identifier columns are integers; [None] is a missing identifier. *)
Definition ident : Type := option Z.

Module Players.
Record row : Type := {
  PLAYER_NAME : string;
  TEAM_ID : ident;
  PLAYER_ID : ident;
  SEASON : ident
}.
End Players.

Module Teams.
Record row : Type := {
  TEAM_ID : ident;
  descriptive : list cell
}.
End Teams.

(** [V] is the type of the cells of the score columns: [cell] as loaded,
    [num] once coerced. *)
Module Games.
Record row (V : Type) : Type := {
  GAME_ID : ident;
  HOME_TEAM_ID : ident;
  SEASON : ident;
  PTS_home : V;
  PTS_away : V
}.
Arguments Build_row {V}.
Arguments GAME_ID {V}.
Arguments HOME_TEAM_ID {V}.
Arguments SEASON {V}.
Arguments PTS_home {V}.
Arguments PTS_away {V}.
End Games.

(** [V] is the type of the cells of PTS, AST and REB, [M] that of MIN. *)
Module Details.
Record row (V M : Type) : Type := {
  GAME_ID : ident;
  PLAYER_ID : ident;
  MIN : M;
  PTS : V;
  AST : V;
  REB : V
}.
Arguments Build_row {V M}.
Arguments GAME_ID {V M}.
Arguments PLAYER_ID {V M}.
Arguments MIN {V M}.
Arguments PTS {V M}.
Arguments AST {V M}.
Arguments REB {V M}.
End Details.

Module Ranking.
Record row : Type := {
  TEAM_ID : ident;
  SEASON_ID : ident;
  CONFERENCE : option string;
  W : Z;
  L : Z;
  W_PCT : float
}.
End Ranking.

(** What [load_data] returns, and the same five names after the cleaning
    section has run.  [G] is the type of the score cells of games, [V] and
    [M] are those of game details. *)
Record tables (G V M : Type) : Type := {
  players : list Players.row;
  teams : list Teams.row;
  games : list (Games.row G);
  game_details : list (Details.row V M);
  ranking : list Ranking.row
}.
Arguments Build_tables {G V M}.
Arguments players {G V M}.
Arguments teams {G V M}.
Arguments games {G V M}.
Arguments game_details {G V M}.
Arguments ranking {G V M}.

(* ================================================================== *)
(** ** Section 3 of the script: data cleaning *)
(* ================================================================== *)

(** [Series.apply(f)]: [f] on every cell in row order; the first exception
    ends the call. *)
Fixpoint apply {A B : Type} (f : A -> result B) (l : list A)
  : result (list B) :=
  match l with
  | [] => Ok []
  | a :: r => b <- f a ;; bs <- apply f r ;; Ok (b :: bs)
  end.

Section Cleaning.

(** pandas' reading of a string cell under [errors='coerce']: the number
    it denotes, an integer or a float, NaN when it denotes none.  The
    cleaning section is embedded for any such reading. *)
Variable str_to_numeric : string -> num.

(** The number [pd.to_numeric(..., errors='coerce')] reads in one cell. *)
Definition to_num (c : cell) : num :=
  match c with
  | CStr s => str_to_numeric s
  | CNum x => Flt x
  | CInt z => Int z
  end.

(** [pd.to_numeric(c, errors='coerce')] on one cell, as a float. *)
Definition to_numeric (c : cell) : float := as_float (to_num c).

(** The dtype [pd.to_numeric] gives to a column: int64 when every cell
    reads as an integer, float64 as soon as one cell reads as a float or
    as null. *)
Definition integral (column : list cell) : bool :=
  forallb (fun c => is_int (to_num c)) column.

(** A number as it is stored in the coerced column. *)
Definition as_column (column : list cell) (n : num) : num :=
  if integral column then n else Flt (as_float n).

(** Lines 37-38, for a row [g] of the table [gs]. *)
Definition coerce_game (gs : list (Games.row cell)) (g : Games.row cell)
  : Games.row num :=
  {| Games.GAME_ID := Games.GAME_ID g;
     Games.HOME_TEAM_ID := Games.HOME_TEAM_ID g;
     Games.SEASON := Games.SEASON g;
     Games.PTS_home :=
       as_column (map Games.PTS_home gs) (to_num (Games.PTS_home g));
     Games.PTS_away :=
       as_column (map Games.PTS_away gs) (to_num (Games.PTS_away g)) |}.

(** Line 39: [dropna(subset=['PTS_home', 'PTS_away'])]. *)
Definition game_complete (g : Games.row num) : bool :=
  negb (num_isna (Games.PTS_home g)) && negb (num_isna (Games.PTS_away g)).

Definition clean_games (gs : list (Games.row cell))
  : list (Games.row num) :=
  filter game_complete (map (coerce_game gs) gs).

(** Lines 41-42. *)
Definition coerce_detail {M : Type} (d : Details.row cell M)
  : Details.row float M :=
  {| Details.GAME_ID := Details.GAME_ID d;
     Details.PLAYER_ID := Details.PLAYER_ID d;
     Details.MIN := Details.MIN d;
     Details.PTS := to_numeric (Details.PTS d);
     Details.AST := to_numeric (Details.AST d);
     Details.REB := to_numeric (Details.REB d) |}.

(** Lines 44-48. *)
Definition convert_minutes (x : cell) : result float :=
  match x with
  | CStr s =>
      if contains ":" s then
        match split ":" s with
        | [m; sec] =>
            fm <- float_of_str m ;;
            fs <- float_of_str sec ;;
            Ok (add fm (div fs (of_Z 60)))
        | _ => Raise ValueError
        end
      else Ok (to_numeric x)
  | _ => Ok (to_numeric x)
  end.

Definition set_MIN {V M M' : Type} (d : Details.row V M) (m : M')
  : Details.row V M' :=
  {| Details.GAME_ID := Details.GAME_ID d;
     Details.PLAYER_ID := Details.PLAYER_ID d;
     Details.MIN := m;
     Details.PTS := Details.PTS d;
     Details.AST := Details.AST d;
     Details.REB := Details.REB d |}.

(** Line 50. *)
Definition apply_convert_minutes {V : Type} (ds : list (Details.row V cell))
  : result (list (Details.row V float)) :=
  ms <- apply convert_minutes (map Details.MIN ds) ;;
  Ok (map (fun dm => set_MIN (fst dm) (snd dm)) (combine ds ms)).

(** Line 51: [dropna(subset=['MIN'])]. *)
Definition detail_complete {V : Type} (d : Details.row V float) : bool :=
  notna (Details.MIN d).

Definition clean_game_details (ds : list (Details.row cell cell))
  : result (list (Details.row float float)) :=
  ds' <- apply_convert_minutes (map coerce_detail ds) ;;
  Ok (filter detail_complete ds').

(** One row of game details through lines 41-50. *)
Definition clean_detail (d : Details.row cell cell)
  : result (Details.row float float) :=
  m <- convert_minutes (Details.MIN d) ;;
  Ok (set_MIN (coerce_detail d) m).

(** Lines 37-51 on the five tables. *)
Definition cleaner (t : tables cell cell cell)
  : result (tables num float float) :=
  let games' := clean_games (games t) in
  details' <- clean_game_details (game_details t) ;;
  Ok {| players := players t;
        teams := teams t;
        games := games';
        game_details := details';
        ranking := ranking t |}.

End Cleaning.

(** A reading of string cells for running the cleaning section on
    concrete tables: a text with an underscore denotes no number, a text
    of digits with an optional sign denotes an integer when it fits
    int64, any other text is read by the decimal grammar. *)
Definition int64_literal (s : string) : option Z :=
  let (neg, body) := sign (strip (list_ascii_of_string s)) in
  match digitpart body with
  | Some (ds, []) =>
      let z := cond_Zopp neg (digits_value ds) in
      if Z.leb (- 2 ^ 63) z && Z.ltb z (2 ^ 63) then Some z else None
  | _ => None
  end.

Definition decimal_to_numeric (s : string) : num :=
  if contains "_" s then Flt nan
  else
    match int64_literal s with
    | Some z => Int z
    | None =>
        match py_float s with
        | Some x => Flt x
        | None => Flt nan
        end
    end.

(** Decimal numerals: texts made of digits, as [str(n)] writes a natural
    number, leading zeros allowed. *)
Module Numeral.

Import Decimal.

Definition text (d : uint) : string := NilEmpty.string_of_uint d.

Definition value (d : uint) : nat := Nat.of_uint d.

Fixpoint digits (d : uint) : list Z :=
  match d with
  | Nil => []
  | D0 d => 0 :: digits d
  | D1 d => 1 :: digits d
  | D2 d => 2 :: digits d
  | D3 d => 3 :: digits d
  | D4 d => 4 :: digits d
  | D5 d => 5 :: digits d
  | D6 d => 6 :: digits d
  | D7 d => 7 :: digits d
  | D8 d => 8 :: digits d
  | D9 d => 9 :: digits d
  end.

End Numeral.

(* ================================================================== *)
(** ** pandas operations used by the script *)
(* ================================================================== *)

(** A stable sort: [leb x y] says that [x] may stay in front of [y]. *)
Section StableSort.

Context {A : Type}.
Variable leb : A -> A -> bool.

Fixpoint insert (x : A) (l : list A) : list A :=
  match l with
  | [] => [x]
  | y :: r => if leb x y then x :: l else y :: insert x r
  end.

Fixpoint stable_sort (l : list A) : list A :=
  match l with
  | [] => []
  | x :: r => insert x (stable_sort r)
  end.

End StableSort.

(** [groupby(by)] with the defaults [sort=True] and [dropna=True]: the
    rows are put into groups in one pass, a row with a null key into
    none; the groups come out in the order of their keys. *)
Section GroupBy.

Context {K R : Type}.
Variable eqb : K -> K -> bool.
Variable leb : K -> K -> bool.
Variable key : R -> option K.

Fixpoint add_to_group (k : K) (r : R) (gs : list (K * list R))
  : list (K * list R) :=
  match gs with
  | [] => [(k, [r])]
  | (k', rs) :: gs' =>
      if eqb k k' then (k', rs ++ [r]) :: gs'
      else (k', rs) :: add_to_group k r gs'
  end.

Definition group_step (gs : list (K * list R)) (r : R) : list (K * list R) :=
  match key r with
  | Some k => add_to_group k r gs
  | None => gs
  end.

Definition group_rows (rows : list R) : list (K * list R) :=
  fold_left group_step rows [].

Definition groupby (rows : list R) : list (K * list R) :=
  stable_sort (fun a b => leb (fst a) (fst b)) (group_rows rows).

End GroupBy.

(** One step of the compensated summation of a group mean: the running
    sum and the compensation, which takes up the rounding error of the
    addition and is reset when it is no number (after an infinite
    cell). *)
Definition kahan_step (acc : float * float) (val : float) : float * float :=
  let (sumx, compensation) := acc in
  let y := sub val compensation in
  let t := add sumx y in
  let c := sub (sub t sumx) y in
  (t, if isna c then zero else c).

(** The sum of the cells of a group, cell after cell in row order. *)
Definition fsum (xs : list float) : float :=
  fst (fold_left kahan_step xs (zero, zero)).

(** [mean()] of a group with the default [skipna=True]: the compensated
    sum of the non-null cells over their number, null when there is
    none. *)
Definition mean (xs : list float) : float :=
  match filter notna xs with
  | [] => nan
  | ys => div (fsum ys) (of_nat (List.length ys))
  end.

(** Join keys: two identifiers match when they are equal, two missing
    ones included. *)
Definition ident_eqb (a b : ident) : bool :=
  match a, b with
  | Some x, Some y => Z.eqb x y
  | None, None => true
  | _, _ => false
  end.

(** [left.merge(right)] with the default [how='inner']. *)
Definition merge_inner {L R : Type} (on : L -> R -> bool)
    (left : list L) (right : list R) : list (L * R) :=
  flat_map (fun l => map (pair l) (filter (on l) right)) left.

(** [left.merge(right, how='left')]: a left row without a match is kept
    once, with nulls for the columns of the right table. *)
Definition merge_left {L R : Type} (on : L -> R -> bool)
    (left : list L) (right : list R) : list (L * option R) :=
  flat_map (fun l =>
              match filter (on l) right with
              | [] => [(l, None)]
              | ms => map (fun r => (l, Some r)) ms
              end) left.

(** [drop_duplicates()]: the first of every run of equal rows is kept. *)
Fixpoint drop_duplicates_from {A : Type} (eqb : A -> A -> bool)
    (seen : list A) (l : list A) : list A :=
  match l with
  | [] => []
  | x :: r =>
      if existsb (eqb x) seen then drop_duplicates_from eqb seen r
      else x :: drop_duplicates_from eqb (x :: seen) r
  end.

Definition drop_duplicates {A : Type} (eqb : A -> A -> bool) (l : list A)
  : list A :=
  drop_duplicates_from eqb [] l.

(** [Series.map(dict)]: a value that is no key of the dict becomes null. *)
Fixpoint dict_get (d : list (string * string)) (k : string) : option string :=
  match d with
  | [] => None
  | (k', v) :: r => if String.eqb k k' then Some v else dict_get r k
  end.

(* ================================================================== *)
(** ** Section 4 of the script: feature engineering *)
(* ================================================================== *)

(** Line 59. *)
Definition TOTAL_POINTS (g : Games.row num) : num :=
  num_add (Games.PTS_home g) (Games.PTS_away g).

(** The score columns as a group mean reads them: cast to float64. *)
Definition total_points (g : Games.row num) : float :=
  as_float (TOTAL_POINTS g).

Definition pts_home (g : Games.row num) : float :=
  as_float (Games.PTS_home g).

Definition pts_away (g : Games.row num) : float :=
  as_float (Games.PTS_away g).

Module SeasonTrend.
Record row : Type := {
  SEASON : Z;
  TOTAL_POINTS : float
}.
End SeasonTrend.

(** Line 62. *)
Definition season_trend (games : list (Games.row num))
  : list SeasonTrend.row :=
  map (fun g =>
         {| SeasonTrend.SEASON := fst g;
            SeasonTrend.TOTAL_POINTS := mean (map total_points (snd g)) |})
      (groupby Z.eqb Z.leb Games.SEASON games).

Module PlayerMeans.
Record row : Type := {
  PLAYER_ID : Z;
  PTS : float;
  AST : float;
  REB : float;
  MIN : float
}.
End PlayerMeans.

(** Lines 66-68. *)
Definition player_means (game_details : list (Details.row float float))
  : list PlayerMeans.row :=
  map (fun g =>
         {| PlayerMeans.PLAYER_ID := fst g;
            PlayerMeans.PTS := mean (map Details.PTS (snd g));
            PlayerMeans.AST := mean (map Details.AST (snd g));
            PlayerMeans.REB := mean (map Details.REB (snd g));
            PlayerMeans.MIN := mean (map Details.MIN (snd g)) |})
      (groupby Z.eqb Z.leb Details.PLAYER_ID game_details).

(** Lines 65-70: a row of the result carries the columns of both
    tables. *)
Definition player_stats (game_details : list (Details.row float float))
    (players : list Players.row) : list (PlayerMeans.row * Players.row) :=
  merge_inner
    (fun m p =>
       ident_eqb (Some (PlayerMeans.PLAYER_ID m)) (Players.PLAYER_ID p))
    (player_means game_details) players.

Module HomeAway.
Record row : Type := {
  SEASON : Z;
  PTS_home : float;
  PTS_away : float
}.
End HomeAway.

(** Lines 75-82. *)
Definition home_away_trend (games : list (Games.row num))
  : list HomeAway.row :=
  map (fun g =>
         {| HomeAway.SEASON := fst g;
            HomeAway.PTS_home := mean (map pts_home (snd g));
            HomeAway.PTS_away := mean (map pts_away (snd g)) |})
      (groupby Z.eqb Z.leb Games.SEASON games).

(** [L] is the type of the Location column: a column name after [melt],
    a possibly null label after [map]. *)
Module HomeAwayLong.
Record row (L : Type) : Type := {
  SEASON : Z;
  Location : L;
  Average_Points : float
}.
Arguments Build_row {L}.
Arguments SEASON {L}.
Arguments Location {L}.
Arguments Average_Points {L}.
End HomeAwayLong.

(** [melt(id_vars="SEASON", value_vars=...)]: for every value column in
    turn, one row per row of the wide table. *)
Definition melt (value_vars : list (string * (HomeAway.row -> float)))
    (wide : list HomeAway.row) : list (HomeAwayLong.row string) :=
  flat_map (fun v =>
              map (fun r =>
                     {| HomeAwayLong.SEASON := HomeAway.SEASON r;
                        HomeAwayLong.Location := fst v;
                        HomeAwayLong.Average_Points := snd v r |}) wide)
           value_vars.

Definition location_names : list (string * string) :=
  [("PTS_home", "Home"); ("PTS_away", "Away")].

(** Lines 84-94. *)
Definition home_away_long (games : list (Games.row num))
  : list (HomeAwayLong.row (option string)) :=
  map (fun r =>
         {| HomeAwayLong.SEASON := HomeAwayLong.SEASON r;
            HomeAwayLong.Location :=
              dict_get location_names (HomeAwayLong.Location r);
            HomeAwayLong.Average_Points := HomeAwayLong.Average_Points r |})
      (melt [("PTS_home", HomeAway.PTS_home); ("PTS_away", HomeAway.PTS_away)]
            (home_away_trend games)).

Module TeamConf.
Record row : Type := {
  TEAM_ID : ident;
  CONFERENCE : option string;
  SEASON_ID : ident
}.

Definition eqb (a b : row) : bool :=
  ident_eqb (TEAM_ID a) (TEAM_ID b)
  && match CONFERENCE a, CONFERENCE b with
     | Some x, Some y => String.eqb x y
     | None, None => true
     | _, _ => false
     end
  && ident_eqb (SEASON_ID a) (SEASON_ID b).
End TeamConf.

(** The (TEAM_ID, CONFERENCE, SEASON_ID) columns of a ranking row. *)
Definition combination (r : Ranking.row) : TeamConf.row :=
  {| TeamConf.TEAM_ID := Ranking.TEAM_ID r;
     TeamConf.CONFERENCE := Ranking.CONFERENCE r;
     TeamConf.SEASON_ID := Ranking.SEASON_ID r |}.

(** Line 100. *)
Definition team_conf (ranking : list Ranking.row) : list TeamConf.row :=
  drop_duplicates TeamConf.eqb (map combination ranking).

(** Lines 102-107. *)
Definition conf_games (games : list (Games.row num))
    (ranking : list Ranking.row)
  : list (Games.row num * option TeamConf.row) :=
  merge_left (fun g c => ident_eqb (Games.HOME_TEAM_ID g) (TeamConf.TEAM_ID c))
             games (team_conf ranking).

(** The CONFERENCE column of the joined table. *)
Definition joined_CONFERENCE (j : Games.row num * option TeamConf.row)
  : option string :=
  match snd j with
  | Some c => TeamConf.CONFERENCE c
  | None => None
  end.

(** The key of [groupby(["SEASON", "CONFERENCE"])]: null as soon as one
    of the two columns is. *)
Definition season_conference (j : Games.row num * option TeamConf.row)
  : option (Z * string) :=
  match Games.SEASON (fst j), joined_CONFERENCE j with
  | Some s, Some c => Some (s, c)
  | _, _ => None
  end.

Definition pair_eqb (a b : Z * string) : bool :=
  Z.eqb (fst a) (fst b) && String.eqb (snd a) (snd b).

Definition pair_leb (a b : Z * string) : bool :=
  if Z.eqb (fst a) (fst b) then String.leb (snd a) (snd b)
  else Z.ltb (fst a) (fst b).

Module ConfTrend.
Record row : Type := {
  SEASON : Z;
  CONFERENCE : string;
  PTS_home : float
}.
End ConfTrend.

(** Lines 109-113. *)
Definition conf_trend (games : list (Games.row num))
    (ranking : list Ranking.row) : list ConfTrend.row :=
  map (fun g =>
         {| ConfTrend.SEASON := fst (fst g);
            ConfTrend.CONFERENCE := snd (fst g);
            ConfTrend.PTS_home :=
              mean (map (fun j => pts_home (fst j)) (snd g)) |})
      (groupby pair_eqb pair_leb season_conference (conf_games games ranking)).

(* ================================================================== *)
(** ** Section 5 of the script: the tables behind tabs 2 and 6 *)
(* ================================================================== *)

Module TeamScores.
Record row : Type := {
  HOME_TEAM_ID : Z;
  PTS_home : float
}.
End TeamScores.

(** Lines 151-152, for the season picked in the select box. *)
Definition team_scores (season : Z) (games : list (Games.row num))
  : list TeamScores.row :=
  map (fun g =>
         {| TeamScores.HOME_TEAM_ID := fst g;
            TeamScores.PTS_home := mean (map pts_home (snd g)) |})
      (groupby Z.eqb Z.leb Games.HOME_TEAM_ID
         (filter (fun g => ident_eqb (Games.SEASON g) (Some season)) games)).

Module RankingTable.
Record row : Type := {
  TEAM_ID : ident;
  SEASON_ID : ident;
  W : Z;
  L : Z;
  W_PCT : float
}.
End RankingTable.

(** The order of [sort_values(..., ascending=False)] on one key, with the
    default [na_position='last']: [Lt] when the first value comes first. *)
Definition ident_desc (a b : ident) : comparison :=
  match a, b with
  | Some x, Some y => Z.compare y x
  | Some _, None => Lt
  | None, Some _ => Gt
  | None, None => Eq
  end.

Definition float_desc (a b : float) : comparison :=
  match SFcompare b a with
  | Some c => c
  | None => if isna a then (if isna b then Eq else Gt) else Lt
  end.

(** The two sort keys in turn. *)
Definition ranking_order (a b : RankingTable.row) : comparison :=
  match ident_desc (RankingTable.SEASON_ID a) (RankingTable.SEASON_ID b) with
  | Eq => float_desc (RankingTable.W_PCT a) (RankingTable.W_PCT b)
  | c => c
  end.

Definition ranking_leb (a b : RankingTable.row) : bool :=
  match ranking_order a b with
  | Gt => false
  | _ => true
  end.

Definition select_ranking (r : Ranking.row) : RankingTable.row :=
  {| RankingTable.TEAM_ID := Ranking.TEAM_ID r;
     RankingTable.SEASON_ID := Ranking.SEASON_ID r;
     RankingTable.W := Ranking.W r;
     RankingTable.L := Ranking.L r;
     RankingTable.W_PCT := Ranking.W_PCT r |}.

(** Lines 223-224: with several keys [sort_values] orders the rows by a
    stable sort on the keys taken together. *)
Definition ranking_table (ranking : list Ranking.row)
  : list RankingTable.row :=
  stable_sort ranking_leb (map select_ranking ranking).

(* ================================================================== *)
(** ** The script from the loaded tables to the tables it displays *)
(* ================================================================== *)

Record views : Type := {
  v_season_trend : list SeasonTrend.row;
  v_team_scores : list TeamScores.row;
  v_player_stats : list (PlayerMeans.row * Players.row);
  v_home_away_long : list (HomeAwayLong.row (option string));
  v_conf_trend : list ConfTrend.row;
  v_ranking_table : list RankingTable.row
}.

(** Sections 4 and 5 on the cleaned tables; [season] is the choice in the
    select box of tab 2. *)
Definition aggregate (season : Z) (t : tables num float float) : views :=
  {| v_season_trend := season_trend (games t);
     v_team_scores := team_scores season (games t);
     v_player_stats := player_stats (game_details t) (players t);
     v_home_away_long := home_away_long (games t);
     v_conf_trend := conf_trend (games t) (ranking t);
     v_ranking_table := ranking_table (ranking t) |}.

(** An exception in the cleaning section ends the script before any view
    is computed. *)
Definition dashboard (str_to_numeric : string -> num) (season : Z)
    (t : tables cell cell cell) : result views :=
  t' <- cleaner str_to_numeric t ;; Ok (aggregate season t').

(* ================================================================== *)
(** ** Vocabulary of the statements *)
(* ================================================================== *)

(** The separator of a duration. *)
Definition colon : ascii := ":"%char.

(** The floats 12.5, which is [25 * 2^-1], and 5.15, the binary64 value
    next to [515 / 100]. *)
Definition float_12_5 : float := S754_finite false 7036874417766400 (-49).

(** The floats written 0.19999999999999998, 101.2, 14.5 and
    28.266666666666666 in decimal. *)
Definition float_0_2_below : float :=
  S754_finite false 7205759403792793 (-55).
Definition float_101_2 : float := S754_finite false 7121316910779597 (-46).
Definition float_14_5 : float := S754_finite false 8162774324609024 (-49).
Definition float_28_27_below : float :=
  S754_finite false 7956359341687876 (-48).

Section GroupBySpec.

Context {K R : Type}.
Variable eqb : K -> K -> bool.
Variable key : R -> option K.

(** The rows of the group of [k]. *)
Definition has_key (k : K) (r : R) : bool :=
  match key r with
  | Some k' => eqb k' k
  | None => false
  end.

(** What one pass over the rows has built: one group per key met, each
    with the rows of its key in the order of the table. *)
Definition grouped (rows : list R) (gs : list (K * list R)) : Prop :=
  NoDup (map fst gs) /\
  (forall k rs, In (k, rs) gs ->
                rs = filter (has_key k) rows /\ rs <> []) /\
  (forall k, In k (map fst gs) <-> exists r, In r rows /\ key r = Some k).

End GroupBySpec.

(** The games of a season, the seasons of a games table. *)
Definition in_season (s : Z) (g : Games.row num) : bool :=
  has_key Z.eqb Games.SEASON s g.

Definition seasons (games : list (Games.row num)) : list Z :=
  flat_map (fun g => match Games.SEASON g with
                     | Some s => [s]
                     | None => []
                     end) games.

Definition distinct_seasons (games : list (Games.row num)) : list Z :=
  nodup Z.eq_dec (seasons games).

(** The detail rows of a player. *)
Definition of_player (p : Z) (d : Details.row float float) : bool :=
  has_key Z.eqb Details.PLAYER_ID p d.

(** The joined rows of a season and a conference. *)
Definition in_season_conference (s : Z) (c : string)
    (j : Games.row num * option TeamConf.row) : bool :=
  has_key pair_eqb season_conference (s, c) j.

(** The games table of the scenario of the specification. *)
Definition scenario_games : list (Games.row cell) :=
  [ {| Games.GAME_ID := Some 1; Games.HOME_TEAM_ID := Some 10;
       Games.SEASON := Some 2020;
       Games.PTS_home := CStr "110"; Games.PTS_away := CStr "105" |};
    {| Games.GAME_ID := Some 2; Games.HOME_TEAM_ID := Some 11;
       Games.SEASON := Some 2020;
       Games.PTS_home := CStr "abc"; Games.PTS_away := CStr "90" |} ].

(** A games table with scores that are no whole numbers: three games of
    the season 2021 at home for team 10, with the home scores 0.1, 0.2
    and 0.3; the same home scores with away scores of 0; and a table of
    two int64 columns whose total leaves int64. *)
Definition game (id team season : Z) (home away : string) : Games.row cell :=
  {| Games.GAME_ID := Some id; Games.HOME_TEAM_ID := Some team;
     Games.SEASON := Some season;
     Games.PTS_home := CStr home; Games.PTS_away := CStr away |}.

Definition decimal_games : list (Games.row cell) :=
  [ game 21 10 2021 "0.1" "100"; game 22 10 2021 "0.2" "101";
    game 23 10 2021 "0.3" "102" ].

Definition tenths_games : list (Games.row cell) :=
  [ game 41 10 2023 "0.1" "0"; game 42 10 2023 "0.2" "0";
    game 43 10 2023 "0.3" "0" ].

Definition int64_games : list (Games.row cell) :=
  [ game 31 10 2022 "9223372036854775807" "1" ].

(** What makes a three-way comparison an order with ties. *)
Definition order_with_ties {A : Type} (cmp : A -> A -> comparison) : Prop :=
  (forall a b, cmp b a = CompOpp (cmp a b)) /\
  (forall a b c, cmp a b = Lt -> cmp b c = Lt -> cmp a c = Lt) /\
  (forall a b c, cmp a b = Eq -> cmp a c = cmp b c).

(** Two rows of the ranking table that the sort keys do not tell apart. *)
Definition same_keys (a b : RankingTable.row) : bool :=
  match ranking_order a b with
  | Eq => true
  | _ => false
  end.

(** The "may stay in front" test of a three-way comparison. *)
Definition cmp_leb {A : Type} (cmp : A -> A -> comparison) (a b : A) : bool :=
  match cmp a b with
  | Gt => false
  | _ => true
  end.

(** The place of a float in the descending order with the nulls last, as
    integers compared one after the other. *)
Definition float_key (a : float) : Z * (Z * Z) :=
  match a with
  | S754_nan => (3, (0, 0))
  | S754_infinity true => (2, (0, 0))
  | S754_finite true m e => (1, (e, Zpos m))
  | S754_zero _ => (0, (0, 0))
  | S754_finite false m e => (-1, (- e, Zneg m))
  | S754_infinity false => (-2, (0, 0))
  end.

Definition key_compare (x y : Z * (Z * Z)) : comparison :=
  match Z.compare (fst x) (fst y) with
  | Eq => match Z.compare (fst (snd x)) (fst (snd y)) with
          | Eq => Z.compare (snd (snd x)) (snd (snd y))
          | c => c
          end
  | c => c
  end.

(** The means of a player over a game-details table. *)
Definition means_of (p : Z) (game_details : list (Details.row float float))
  : PlayerMeans.row :=
  {| PlayerMeans.PLAYER_ID := p;
     PlayerMeans.PTS :=
       mean (map Details.PTS (filter (of_player p) game_details));
     PlayerMeans.AST :=
       mean (map Details.AST (filter (of_player p) game_details));
     PlayerMeans.REB :=
       mean (map Details.REB (filter (of_player p) game_details));
     PlayerMeans.MIN :=
       mean (map Details.MIN (filter (of_player p) game_details)) |}.

(** The loaded tables with another games table, another game-details
    table. *)
Definition with_games {G V M : Type} (t : tables G V M)
    (gs : list (Games.row G)) : tables G V M :=
  {| players := players t; teams := teams t; games := gs;
     game_details := game_details t; ranking := ranking t |}.

Definition with_game_details {G V M : Type} (t : tables G V M)
    (ds : list (Details.row V M)) : tables G V M :=
  {| players := players t; teams := teams t; games := games t;
     game_details := ds; ranking := ranking t |}.

(** The order of the leaderboard in words: later seasons first, and in a
    season the higher win percentages first, nulls last. *)
Definition W_PCT_descending (a b : float) : Prop :=
  isna b = true \/ SFleb b a = true.

Definition leaderboard_order (a b : RankingTable.row) : Prop :=
  match RankingTable.SEASON_ID a, RankingTable.SEASON_ID b with
  | Some x, Some y =>
      y < x \/
      (y = x /\ W_PCT_descending (RankingTable.W_PCT a) (RankingTable.W_PCT b))
  | Some _, None => True
  | None, Some _ => False
  | None, None =>
      W_PCT_descending (RankingTable.W_PCT a) (RankingTable.W_PCT b)
  end.

(** Tables for running the script: a game-details table with a MIN cell
    that has a colon and no numbers around it, and the same table
    without that row. *)
Definition detail (player : Z) (minutes : string) (pts : cell)
  : Details.row cell cell :=
  {| Details.GAME_ID := Some 1; Details.PLAYER_ID := Some player;
     Details.MIN := CStr minutes;
     Details.PTS := pts; Details.AST := CNum (of_Z 4);
     Details.REB := CNum (of_Z 7) |}.

Definition scenario_players : list Players.row :=
  [ {| Players.PLAYER_NAME := "A. Guard"; Players.TEAM_ID := Some 10;
       Players.PLAYER_ID := Some 201; Players.SEASON := Some 2020 |};
    {| Players.PLAYER_NAME := "B. Center"; Players.TEAM_ID := Some 11;
       Players.PLAYER_ID := Some 202; Players.SEASON := Some 2020 |} ].

Definition scenario_ranking : list Ranking.row :=
  [ {| Ranking.TEAM_ID := Some 10; Ranking.SEASON_ID := Some 22020;
       Ranking.CONFERENCE := Some "East"; Ranking.W := 40; Ranking.L := 32;
       Ranking.W_PCT := as_float (decimal_to_numeric "0.556") |};
    {| Ranking.TEAM_ID := Some 11; Ranking.SEASON_ID := Some 22020;
       Ranking.CONFERENCE := Some "West"; Ranking.W := 36; Ranking.L := 36;
       Ranking.W_PCT := as_float (decimal_to_numeric "0.5") |} ].

Definition scenario_tables (details : list (Details.row cell cell))
  : tables cell cell cell :=
  {| players := scenario_players;
     teams := [ {| Teams.TEAM_ID := Some 10; Teams.descriptive := [] |} ];
     games := scenario_games;
     game_details := details;
     ranking := scenario_ranking |}.

(** Three rows of one player with the durations 25:32, 22:54 and 36:22
    and an unreadable PTS cell. *)
Definition minutes_details : list (Details.row cell cell) :=
  [ detail 201 "25:32" (CStr "21"); detail 201 "22:54" (CStr "8");
    detail 201 "36:22" (CStr "n/a") ].

(** The rows of [minutes_details] once cleaned, and the row of the first
    player of the scenario. *)
Definition cleaned_detail (player : Z) (minutes pts : float)
  : Details.row float float :=
  {| Details.GAME_ID := Some 1; Details.PLAYER_ID := Some player;
     Details.MIN := minutes;
     Details.PTS := pts; Details.AST := of_Z 4; Details.REB := of_Z 7 |}.

Definition minutes_rows : list (Details.row float float) :=
  [ cleaned_detail 201 (add (of_Z 25) (div (of_Z 32) (of_Z 60))) (of_Z 21);
    cleaned_detail 201 (add (of_Z 22) (div (of_Z 54) (of_Z 60))) (of_Z 8);
    cleaned_detail 201 (add (of_Z 36) (div (of_Z 22) (of_Z 60))) nan ].

Definition minutes_means : PlayerMeans.row :=
  {| PlayerMeans.PLAYER_ID := 201;
     PlayerMeans.PTS := float_14_5;
     PlayerMeans.AST := of_Z 4;
     PlayerMeans.REB := of_Z 7;
     PlayerMeans.MIN := float_28_27_below |}.

Definition first_player : Players.row :=
  {| Players.PLAYER_NAME := "A. Guard"; Players.TEAM_ID := Some 10;
     Players.PLAYER_ID := Some 201; Players.SEASON := Some 2020 |}.

(** A game at home for a team that is in no row of the ranking table. *)
Definition unranked_game : Games.row num :=
  {| Games.GAME_ID := Some 24; Games.HOME_TEAM_ID := Some 99;
     Games.SEASON := Some 2021;
     Games.PTS_home := Flt (of_Z 150); Games.PTS_away := Int 90 |}.

Definition good_details : list (Details.row cell cell) :=
  [ detail 201 "32:15" (CStr "21"); detail 202 "0:00" (CStr "n/a") ].

Definition malformed_details : list (Details.row cell cell) :=
  [ detail 201 "32:15" (CStr "21"); detail 202 "ab:cd" (CStr "8") ].

(* ================================================================== *)
(** ** Vocabulary of the further statements *)
(* ================================================================== *)


(** Texts made of blanks. *)
Fixpoint blank (s : string) : bool :=
  match s with
  | EmptyString => true
  | String c r => is_space c && blank r
  end.

(** The six blanks, and the four separator characters of codes 28 to 31,
    which [str.isspace] accepts and [float] does not strip. *)
Definition six_blanks : string :=
  String "009" (String "010" (String "011" (String "012"
    (String "013" (String "032" EmptyString))))).


(** The number of occurrences of a character. *)
Fixpoint occurrences (c : ascii) (s : string) : nat :=
  match s with
  | EmptyString => O
  | String a r => if Ascii.eqb a c then S (occurrences c r) else occurrences c r
  end.

(** A cleaned table written back as a loaded one: every number in its
    cell. *)
Definition cell_of_num (n : num) : cell :=
  match n with
  | Int z => CInt z
  | Flt x => CNum x
  end.

Definition game_as_loaded (g : Games.row num) : Games.row cell :=
  {| Games.GAME_ID := Games.GAME_ID g;
     Games.HOME_TEAM_ID := Games.HOME_TEAM_ID g;
     Games.SEASON := Games.SEASON g;
     Games.PTS_home := cell_of_num (Games.PTS_home g);
     Games.PTS_away := cell_of_num (Games.PTS_away g) |}.

Definition detail_as_loaded (d : Details.row float float)
  : Details.row cell cell :=
  {| Details.GAME_ID := Details.GAME_ID d;
     Details.PLAYER_ID := Details.PLAYER_ID d;
     Details.MIN := CNum (Details.MIN d);
     Details.PTS := CNum (Details.PTS d);
     Details.AST := CNum (Details.AST d);
     Details.REB := CNum (Details.REB d) |}.

Definition as_loaded (t : tables num float float) : tables cell cell cell :=
  {| players := players t;
     teams := teams t;
     games := map game_as_loaded (games t);
     game_details := map detail_as_loaded (game_details t);
     ranking := ranking t |}.

(** The home games of a team in a season. *)
Definition home_in_season (season h : Z) (g : Games.row num) : bool :=
  ident_eqb (Games.SEASON g) (Some season)
  && ident_eqb (Games.HOME_TEAM_ID g) (Some h).

(** The order of the keys of the conference trend: by season, then by
    the name of the conference. *)
Definition season_conference_lt (a b : Z * string) : Prop :=
  fst a < fst b \/ (fst a = fst b /\ String.ltb (snd a) (snd b) = true).

(** The combinations of the home team of a game. *)
Definition combinations_of (g : Games.row num)
    (ranking : list Ranking.row) : list TeamConf.row :=
  filter (fun c => ident_eqb (Games.HOME_TEAM_ID g) (TeamConf.TEAM_ID c))
         (team_conf ranking).

(** A game with the scores of the two teams exchanged. *)
Definition swap_scores (g : Games.row num) : Games.row num :=
  {| Games.GAME_ID := Games.GAME_ID g;
     Games.HOME_TEAM_ID := Games.HOME_TEAM_ID g;
     Games.SEASON := Games.SEASON g;
     Games.PTS_home := Games.PTS_away g;
     Games.PTS_away := Games.PTS_home g |}.

(** A change of rows inside a group. *)
Definition map_group {K R R' : Type} (h : R -> R') (g : K * list R)
  : K * list R' :=
  (fst g, map h (snd g)).

(** The opposite of a float. *)
Definition opp : float -> float := SFopp.

(* ================================================================== *)
(** ** Facts about binary64 arithmetic *)
(* ================================================================== *)

Module Float64Facts.

Lemma iter_pos_invariant {A : Type} (P : A -> Prop) (g : A -> A) :
  (forall x, P x -> P (g x)) ->
  forall n x, P x -> P (iter_pos g n x).
Proof.
  intros Hg. induction n as [n IH|n IH|]; intros x Hx; simpl; auto.
Qed.

Lemma shr_1_nonneg (mrs : shr_record) :
  0 <= shr_m mrs -> 0 <= shr_m (shr_1 mrs).
Proof.
  destruct mrs as [m r s]. simpl.
  destruct m as [|[p|p|]|[p|p|]]; simpl; lia.
Qed.

Lemma shr_nonneg (mrs : shr_record) (e n : Z) :
  0 <= shr_m mrs -> 0 <= shr_m (fst (shr mrs e n)).
Proof.
  intros H. unfold shr. destruct n as [|p|p]; simpl; try exact H.
  apply (iter_pos_invariant (fun x => 0 <= shr_m x)); [|exact H].
  apply shr_1_nonneg.
Qed.

Lemma shr_record_of_loc_m (m : Z) (l : location) :
  shr_m (shr_record_of_loc m l) = m.
Proof. destruct l as [|[]]; reflexivity. Qed.

Lemma round_nearest_even_nonneg (m : Z) (l : location) :
  0 <= m -> 0 <= round_nearest_even m l.
Proof.
  intros H. unfold round_nearest_even.
  destruct l as [|[]]; try exact H; [destruct (Z.even m)|]; lia.
Qed.

(** Rounding a magnitude never gives a NaN. *)
Lemma binary_round_aux_notna (sx : bool) (mx ex : Z) (lx : location) :
  0 <= mx -> isna (binary_round_aux prec emax sx mx ex lx) = false.
Proof.
  intros H. unfold binary_round_aux, shr_fexp.
  destruct (shr (shr_record_of_loc mx lx) ex _) as [mrs' e'] eqn:E1.
  assert (H1 : 0 <= shr_m mrs').
  { change mrs' with (fst (mrs', e')). rewrite <- E1. apply shr_nonneg.
    rewrite shr_record_of_loc_m. exact H. }
  destruct (shr (shr_record_of_loc (round_nearest_even _ _) loc_Exact) e' _)
    as [mrs'' e''] eqn:E2.
  assert (H2 : 0 <= shr_m mrs'').
  { change mrs'' with (fst (mrs'', e'')). rewrite <- E2. apply shr_nonneg.
    rewrite shr_record_of_loc_m. apply round_nearest_even_nonneg. exact H1. }
  destruct (shr_m mrs'') as [|p|p]; [reflexivity | | lia].
  destruct (Z.leb e'' (emax - prec)); reflexivity.
Qed.

Lemma binary_normalize_notna (m e : Z) (szero : bool) :
  isna (binary_normalize prec emax m e szero) = false.
Proof.
  unfold binary_normalize, binary_round.
  destruct m as [|p|p]; [reflexivity | |];
    destruct (shl_align _ _ _) as [mz ez];
    apply binary_round_aux_notna; lia.
Qed.

(** The sum of two finite numbers is no NaN. *)
Lemma add_finite_notna (a b : float) :
  is_finite a = true -> is_finite b = true -> isna (add a b) = false.
Proof.
  unfold add, SFadd.
  destruct a as [sa|sa| |sa ma ea], b as [sb|sb| |sb mb eb];
    try discriminate; intros _ _; try reflexivity.
  - destruct sa, sb; reflexivity.
  - apply binary_normalize_notna.
Qed.

End Float64Facts.
(* ================================================================== *)
(** ** Facts about text *)
(* ================================================================== *)

Module PyStrFacts.

Lemma contains_In (c : ascii) (s : string) :
  contains c s = true <-> In c (list_ascii_of_string s).
Proof.
  induction s as [|a r IH]; simpl.
  - split; [discriminate | tauto].
  - rewrite orb_true_iff, IH, Ascii.eqb_eq. tauto.
Qed.

Lemma contains_false_split (sep : ascii) (s : string) :
  contains sep s = false -> split sep s = [s].
Proof.
  induction s as [|a r IH]; simpl; intros H; [reflexivity|].
  apply orb_false_iff in H. destruct H as [Ha Hr].
  rewrite Ha, (IH Hr). reflexivity.
Qed.

Lemma split_not_nil (sep : ascii) (s : string) : split sep s <> [].
Proof.
  destruct s as [|a r]; simpl; [discriminate|].
  destruct (Ascii.eqb a sep); [discriminate|].
  destruct (split sep r); discriminate.
Qed.

Lemma contains_true_split (sep : ascii) (s : string) :
  contains sep s = true ->
  exists p q rest, split sep s = p :: q :: rest.
Proof.
  induction s as [|a r IH]; simpl; intros H; [discriminate|].
  destruct (Ascii.eqb a sep) eqn:Ha.
  - destruct (split sep r) as [|q rest] eqn:Hs.
    + exfalso. eapply split_not_nil; eassumption.
    + eauto.
  - simpl in H. destruct (IH H) as (p & q & rest & Hs).
    rewrite Hs. eauto.
Qed.

Lemma split_first_contains (sep : ascii) (s : string) :
  contains sep s = true <-> exists p q, split_first sep s = Some (p, q).
Proof.
  induction s as [|a r IH]; simpl.
  - split; [discriminate | intros (p & q & H); discriminate].
  - destruct (Ascii.eqb a sep); simpl.
    + split; eauto.
    + rewrite IH. split; intros (p & q & H).
      * rewrite H. eauto.
      * destruct (split_first sep r) as [[p' q']|]; [eauto | discriminate].
Qed.

(** Splitting everywhere starts with the piece before the first
    separator and goes on in the text after it. *)
Lemma split_first_split (sep : ascii) (s p q : string) :
  split_first sep s = Some (p, q) -> split sep s = p :: split sep q.
Proof.
  revert p q. induction s as [|a r IH]; simpl; intros p q H; [discriminate|].
  destruct (Ascii.eqb a sep).
  - injection H as <- <-. reflexivity.
  - destruct (split_first sep r) as [[p' q']|]; [|discriminate].
    injection H as <- <-. rewrite (IH _ _ eq_refl). reflexivity.
Qed.

Lemma split_first_append (sep : ascii) (p q : string) :
  contains sep p = false ->
  split_first sep (p ++ String sep q) = Some (p, q).
Proof.
  induction p as [|a r IH]; simpl; intros H.
  - rewrite Ascii.eqb_refl. reflexivity.
  - apply orb_false_iff in H. destruct H as [Ha Hr].
    rewrite Ha, (IH Hr). reflexivity.
Qed.

End PyStrFacts.

Module PyFloatFacts.

Lemma In_lstrip (c : ascii) (l : list ascii) :
  is_space c = false -> In c l -> In c (lstrip l).
Proof.
  intros Hc. induction l as [|a r IH]; simpl; [tauto|].
  intros [<- | H].
  - rewrite Hc. left. reflexivity.
  - destruct (is_space a); [apply IH, H | right; exact H].
Qed.

Lemma In_strip (c : ascii) (l : list ascii) :
  is_space c = false -> In c l -> In c (strip l).
Proof.
  intros Hc H. unfold strip.
  apply in_rev. rewrite rev_involutive.
  apply In_lstrip; [exact Hc|].
  apply in_rev. rewrite rev_involutive.
  apply In_lstrip; assumption.
Qed.

Lemma sign_cases (l : list ascii) :
  (exists r, l = "+"%char :: r /\ sign l = (false, r)) \/
  (exists r, l = "-"%char :: r /\ sign l = (true, r)) \/
  sign l = (false, l).
Proof.
  destruct l as [|a r]; [right; right; reflexivity|].
  destruct (ascii_dec a "+") as [->|Hp]; [left; eauto|].
  destruct (ascii_dec a "-") as [->|Hm]; [right; left; eauto|].
  right; right.
  destruct a as [[] [] [] [] [] [] [] []]; try reflexivity; congruence.
Qed.

Lemma In_sign (l : list ascii) :
  In colon l -> In colon (snd (sign l)).
Proof.
  destruct (sign_cases l) as [(r & -> & ->) | [(r & -> & ->) | ->]];
    simpl; [| |tauto]; (intros [H|H]; [discriminate | exact H]).
Qed.

Lemma digit_of_colon : digit_of colon = None.
Proof. reflexivity. Qed.

Lemma more_digits_colon_aux (n : nat) :
  forall cs ds r, (List.length cs <= n)%nat ->
    more_digits cs = (ds, r) -> In colon cs -> In colon r.
Proof.
  induction n as [|n IH]; intros cs ds r Hn.
  - destruct cs; simpl in *; [tauto | lia].
  - destruct cs as [|c cs']; simpl; [tauto|].
    simpl in Hn.
    destruct (digit_of c) eqn:Hc.
    + destruct (more_digits cs') as [ds' r'] eqn:Hm.
      intros E [-> | H]; injection E as <- <-.
      * rewrite digit_of_colon in Hc. discriminate.
      * eapply IH; [|exact Hm|exact H]. lia.
    + destruct (Ascii.eqb c "_") eqn:Hu.
      * destruct cs' as [|c2 r2];
        [intros E; injection E as <- <-; simpl; tauto|].
        destruct (digit_of c2) eqn:Hc2.
        -- destruct (more_digits r2) as [ds' r'] eqn:Hm.
           simpl in Hn.
           intros E [-> | [-> | H]]; injection E as <- <-.
           ++ cbv in Hu; discriminate.
           ++ rewrite digit_of_colon in Hc2. discriminate.
           ++ eapply IH; [|exact Hm|exact H]. lia.
        -- intros E; injection E as <- <-; simpl; tauto.
      * intros E; injection E as <- <-; simpl; tauto.
Qed.

Lemma more_digits_colon cs ds r :
  more_digits cs = (ds, r) -> In colon cs -> In colon r.
Proof. apply (more_digits_colon_aux (List.length cs)). lia. Qed.

Lemma digitpart_colon cs ds r :
  digitpart cs = Some (ds, r) -> In colon cs -> In colon r.
Proof.
  unfold digitpart. destruct cs as [|c cs']; [discriminate|].
  destruct (digit_of c) eqn:Hc; [|discriminate].
  destruct (more_digits cs') as [ds' r'] eqn:Hm.
  intros E [-> | H]; injection E as <- <-.
  - rewrite digit_of_colon in Hc. discriminate.
  - eapply more_digits_colon; eassumption.
Qed.

Lemma number_colon cs ip fp r :
  number cs = Some (ip, fp, r) -> In colon cs -> In colon r.
Proof.
  unfold number.
  destruct (digitpart cs) as [[ip' r']|] eqn:Hd.
  - intros E H. pose proof (digitpart_colon _ _ _ Hd H) as Hr'.
    destruct r' as [|a r1]; [injection E as <- <- <-; exact Hr'|].
    destruct (ascii_dec a ".") as [->|Hne].
    + destruct Hr' as [Hr'|Hr']; [cbv in Hr'; discriminate|].
      destruct (digitpart r1) as [[fp' r2]|] eqn:Hd1;
        injection E as <- <- <-.
      * eapply digitpart_colon; eassumption.
      * exact Hr'.
    + assert (E' : Some (ip', @nil Z, a :: r1) = Some (ip, fp, r)).
      { destruct a as [[] [] [] [] [] [] [] []]; try exact E; congruence. }
      injection E' as <- <- <-. exact Hr'.
  - destruct cs as [|a r1]; [discriminate|].
    destruct (ascii_dec a ".") as [->|Hne].
    + destruct (digitpart r1) as [[fp' r2]|] eqn:Hd1; [|discriminate].
      intros E [H|H]; [cbv in H; discriminate|]. injection E as <- <- <-.
      eapply digitpart_colon; eassumption.
    + intros E. exfalso.
      destruct a as [[] [] [] [] [] [] [] []]; try discriminate; congruence.
Qed.

Lemma exponent_colon r e : exponent r = Some e -> ~ In colon r.
Proof.
  unfold exponent. destruct r as [|c r']; [intros _ []|].
  destruct (Ascii.eqb (to_lower c) "e") eqn:Hc; [|discriminate].
  destruct (sign r') as [neg r1] eqn:Hs.
  destruct (digitpart r1) as [[ds [|x y]]|] eqn:Hd; try discriminate.
  intros _ [-> | H]; [cbv in Hc; discriminate|].
  apply In_sign in H. rewrite Hs in H. simpl in H.
  exact (digitpart_colon _ _ _ Hd H).
Qed.

Lemma to_lower_colon c : to_lower c = colon -> c = colon.
Proof.
  destruct c as [[] [] [] [] [] [] [] []]; vm_compute; congruence.
Qed.

Lemma is_word_colon w cs :
  ~ In colon (list_ascii_of_string w) -> is_word w cs = true ->
  ~ In colon cs.
Proof.
  unfold is_word. intros Hw.
  destruct (list_eq_dec ascii_dec (map to_lower cs) (list_ascii_of_string w))
    as [E|]; [|discriminate].
  intros _ H. apply Hw. rewrite <- E.
  apply in_map_iff. exists colon. split; [reflexivity | exact H].
Qed.

(** No text with a colon in it reads as a number. *)
Lemma py_float_colon (s : string) :
  contains colon s = true -> py_float s = None.
Proof.
  intros H. apply PyStrFacts.contains_In in H.
  apply (In_strip colon) in H; [|reflexivity].
  apply In_sign in H.
  unfold py_float.
  destruct (sign (strip (list_ascii_of_string s))) as [neg body].
  simpl in H.
  destruct (is_word "inf" body) eqn:W1.
  { exfalso. revert H. apply (is_word_colon "inf"); [|exact W1].
    simpl. intuition discriminate. }
  destruct (is_word "infinity" body) eqn:W2.
  { exfalso. revert H. apply (is_word_colon "infinity"); [|exact W2].
    simpl. intuition discriminate. }
  destruct (is_word "nan" body) eqn:W3.
  { exfalso. revert H. apply (is_word_colon "nan"); [|exact W3].
    simpl. intuition discriminate. }
  simpl.
  destruct (number body) as [[[ip fp] r]|] eqn:Hn; [|reflexivity].
  destruct (exponent r) as [e|] eqn:He; [|reflexivity].
  exfalso. apply (exponent_colon _ _ He).
  eapply number_colon; eassumption.
Qed.

End PyFloatFacts.

Module NumeralFacts.

Import Decimal Numeral.

Lemma more_digits_text (d : uint) :
  more_digits (list_ascii_of_string (text d)) = (digits d, []).
Proof.
  induction d; [reflexivity | ..];
    cbn [text NilEmpty.string_of_uint list_ascii_of_string] in *;
    cbn [more_digits]; cbv [digit_of];
    match goal with |- context [nat_of_ascii ?c] =>
      let n := eval vm_compute in (nat_of_ascii c) in
      change (nat_of_ascii c) with n
    end;
    cbn [Nat.leb andb]; unfold text in IHd; rewrite IHd; reflexivity.
Qed.

Lemma digitpart_text (d : uint) :
  d <> Nil ->
  digitpart (list_ascii_of_string (text d)) = Some (digits d, []).
Proof.
  intros Hd. destruct d; [congruence | ..];
    cbn [text NilEmpty.string_of_uint list_ascii_of_string];
    cbn [digitpart]; cbv [digit_of];
    match goal with |- context [nat_of_ascii ?c] =>
      let n := eval vm_compute in (nat_of_ascii c) in
      change (nat_of_ascii c) with n
    end;
    cbn [Nat.leb andb];
    change (NilEmpty.string_of_uint d) with (text d);
    rewrite more_digits_text; reflexivity.
Qed.

Lemma text_no_space (d : uint) :
  Forall (fun c => is_space c = false) (list_ascii_of_string (text d)).
Proof.
  induction d; [constructor | ..]; constructor; (reflexivity || assumption).
Qed.

Lemma text_no_colon (d : uint) : contains ":" (text d) = false.
Proof.
  induction d; [reflexivity | ..]; simpl; exact IHd.
Qed.

Lemma lstrip_id (l : list ascii) :
  Forall (fun c => is_space c = false) l -> lstrip l = l.
Proof.
  destruct 1 as [|c r Hc _]; [reflexivity|]. simpl. rewrite Hc. reflexivity.
Qed.

Lemma strip_id (l : list ascii) :
  Forall (fun c => is_space c = false) l -> strip l = l.
Proof.
  intros H. unfold strip. rewrite (lstrip_id l H).
  rewrite lstrip_id; [apply rev_involutive|].
  apply Forall_forall. intros c Hc. apply in_rev in Hc.
  revert c Hc. apply Forall_forall. exact H.
Qed.

Lemma sign_text (d : uint) :
  sign (list_ascii_of_string (text d)) =
    (false, list_ascii_of_string (text d)).
Proof. destruct d; reflexivity. Qed.

Lemma is_word_text (w : string) (d : uint) :
  match w with
  | String c _ => digit_of c = None
  | EmptyString => True
  end ->
  d <> Nil -> is_word w (list_ascii_of_string (text d)) = false.
Proof.
  intros Hw Hd. unfold is_word.
  destruct (list_eq_dec ascii_dec _ _) as [E|]; [|reflexivity].
  exfalso. destruct w as [|c w']; [destruct d; (congruence || discriminate)|].
  destruct d; [congruence | ..]; simpl in E; injection E as E _;
    rewrite <- E in Hw; discriminate.
Qed.

Lemma fold_digits (d : uint) (acc : nat) :
  fold_left (fun a x => 10 * a + x) (digits d) (Z.of_nat acc) =
    Z.of_nat (Nat.of_uint_acc d acc).
Proof.
  revert acc. induction d; intros acc; [reflexivity | ..];
    cbn [digits fold_left Nat.of_uint_acc];
    rewrite Nat.tail_mul_spec, <- IHd; f_equal; lia.
Qed.

Lemma digits_value_text (d : uint) :
  digits_value (digits d) = Z.of_nat (value d).
Proof. exact (fold_digits d 0). Qed.

Lemma of_decimal_int (n : nat) :
  of_decimal false (Z.of_nat n) (0 - 0) = of_nat n.
Proof.
  unfold of_nat, of_Z, of_decimal.
  destruct (Z.of_nat n) as [|p|p] eqn:E; [reflexivity | | lia].
  simpl. rewrite Pos.mul_1_r. reflexivity.
Qed.

(** [float] of a numeral is its value, rounded to the format. *)
Lemma py_float_text (d : uint) :
  d <> Nil -> py_float (text d) = Some (of_nat (value d)).
Proof.
  intros Hd. unfold py_float.
  rewrite (strip_id _ (text_no_space d)), sign_text.
  rewrite !is_word_text by (assumption || reflexivity).
  cbn [orb]. unfold number.
  rewrite (digitpart_text d Hd). cbn [exponent List.length Z.of_nat].
  rewrite app_nil_r, digits_value_text, of_decimal_int.
  reflexivity.
Qed.

End NumeralFacts.

(* ================================================================== *)
(** ** Facts about the cleaning section *)
(* ================================================================== *)

Section CleaningFacts.

Variable f : string -> num.

Lemma apply_app {A B : Type} (g : A -> result B) (l1 l2 : list A) :
  apply g (l1 ++ l2) =
    (bs1 <- apply g l1 ;; bs2 <- apply g l2 ;; Ok (bs1 ++ bs2)).
Proof.
  induction l1 as [|a r IH]; simpl.
  - destruct (apply g l2); reflexivity.
  - destruct (g a) as [b|e]; simpl; [|reflexivity].
    rewrite IH. destruct (apply g r); simpl; [|reflexivity].
    destruct (apply g l2); reflexivity.
Qed.

Lemma apply_raises {A B : Type} (g : A -> result B) (l : list A) a e :
  In a l -> g a = Raise e -> exists e', apply g l = Raise e'.
Proof.
  induction l as [|b r IH]; simpl; [tauto|].
  intros [-> | H] Ha.
  - rewrite Ha. simpl. eauto.
  - destruct (g b); simpl; [|eauto].
    destruct (IH H Ha) as [e' ->]. simpl. eauto.
Qed.


Lemma apply_convert_minutes_rows (ds : list (Details.row cell cell)) :
  apply_convert_minutes f (map (coerce_detail f) ds) =
    apply (clean_detail f) ds.
Proof.
  unfold apply_convert_minutes.
  induction ds as [|d r IH]; [reflexivity|].
  cbn [map apply]. unfold clean_detail at 1.
  change (Details.MIN (coerce_detail f d)) with (Details.MIN d).
  destruct (convert_minutes f (Details.MIN d)) as [m|e]; simpl; [|reflexivity].
  rewrite <- IH.
  destruct (apply (convert_minutes f)
              (map Details.MIN (map (coerce_detail f) r)));
    reflexivity.
Qed.

(** The game-details table row by row: every row is converted, then the
    rows with a null MIN are dropped. *)
Lemma clean_game_details_rows (ds : list (Details.row cell cell)) :
  clean_game_details f ds =
    (rows <- apply (clean_detail f) ds ;; Ok (filter detail_complete rows)).
Proof.
  unfold clean_game_details. rewrite apply_convert_minutes_rows.
  reflexivity.
Qed.

Lemma convert_minutes_split (s m t : string) :
  split_first ":" s = Some (m, t) ->
  convert_minutes f (CStr s) =
    match py_float m, py_float t with
    | Some a, Some b => Ok (add a (div b (of_Z 60)))
    | _, _ => Raise ValueError
    end.
Proof.
  intros H. unfold convert_minutes.
  assert (Hc : contains ":" s = true)
    by (apply PyStrFacts.split_first_contains; eauto).
  rewrite Hc, (PyStrFacts.split_first_split _ _ _ _ H).
  destruct (contains ":" t) eqn:Ht.
  - destruct (PyStrFacts.contains_true_split _ _ Ht) as (p & q & rest & ->).
    rewrite (PyFloatFacts.py_float_colon t Ht).
    destruct (py_float m); reflexivity.
  - rewrite (PyStrFacts.contains_false_split _ _ Ht).
    unfold float_of_str.
    destruct (py_float m); simpl; [|reflexivity].
    destruct (py_float t); reflexivity.
Qed.

Lemma convert_minutes_plain (s : string) :
  contains ":" s = false ->
  convert_minutes f (CStr s) = Ok (as_float (f s)).
Proof. intros H. unfold convert_minutes. rewrite H. reflexivity. Qed.


(** The cast of a column is seen by no float reading of its cells. *)
Lemma as_float_as_column (column : list cell) (n : num) :
  as_float (as_column f column n) = as_float n.
Proof. unfold as_column. destruct (integral f column); reflexivity. Qed.

Lemma num_isna_as_float (n : num) : num_isna n = isna (as_float n).
Proof.
  destruct n as [z|x]; [|reflexivity].
  simpl. symmetry. apply Float64Facts.binary_normalize_notna.
Qed.

Lemma num_isna_as_column (column : list cell) (n : num) :
  num_isna (as_column f column n) = num_isna n.
Proof. rewrite !num_isna_as_float, as_float_as_column. reflexivity. Qed.

(** The rows that line 39 keeps: those whose two cells read as numbers. *)
Lemma game_complete_coerce (gs : list (Games.row cell)) (g : Games.row cell) :
  game_complete (coerce_game f gs g) =
    notna (to_numeric f (Games.PTS_home g))
    && notna (to_numeric f (Games.PTS_away g)).
Proof.
  unfold game_complete, notna, to_numeric. simpl.
  rewrite !num_isna_as_column, !num_isna_as_float. reflexivity.
Qed.

(** A score row with a null score leaves no trace in the cleaned table,
    as long as the two score columns keep their dtype without it. *)
Lemma clean_games_drop (g1 g2 : list (Games.row cell)) (g : Games.row cell) :
  isna (to_numeric f (Games.PTS_home g)) = true \/
  isna (to_numeric f (Games.PTS_away g)) = true ->
  integral f (map Games.PTS_home (g1 ++ g :: g2)) =
    integral f (map Games.PTS_home (g1 ++ g2)) ->
  integral f (map Games.PTS_away (g1 ++ g :: g2)) =
    integral f (map Games.PTS_away (g1 ++ g2)) ->
  clean_games f (g1 ++ g :: g2) = clean_games f (g1 ++ g2).
Proof.
  intros H Hh Ha. unfold clean_games.
  assert (E : forall r, coerce_game f (g1 ++ g :: g2) r =
                        coerce_game f (g1 ++ g2) r).
  { intros r. unfold coerce_game, as_column. rewrite Hh, Ha. reflexivity. }
  rewrite !map_app, !filter_app. cbn [map filter].
  rewrite game_complete_coerce.
  replace (notna (to_numeric f (Games.PTS_home g))
           && notna (to_numeric f (Games.PTS_away g))) with false.
  - rewrite (map_ext _ _ E g1), (map_ext _ _ E g2). reflexivity.
  - unfold notna.
    destruct H as [-> | ->]; [reflexivity | apply eq_sym, andb_false_r].
Qed.

Lemma clean_games_In (gs : list (Games.row cell)) (g : Games.row num) :
  In g (clean_games f gs) <->
  exists r, In r gs /\ g = coerce_game f gs r /\
            isna (to_numeric f (Games.PTS_home r)) = false /\
            isna (to_numeric f (Games.PTS_away r)) = false.
Proof.
  unfold clean_games. rewrite filter_In, in_map_iff. split.
  - intros [(r & <- & Hr) Hc]. exists r.
    rewrite game_complete_coerce in Hc. unfold notna in Hc.
    apply andb_true_iff in Hc. rewrite !negb_true_iff in Hc. tauto.
  - intros (r & Hr & -> & Hh & Ha). split; [eauto|].
    rewrite game_complete_coerce. unfold notna. rewrite Hh, Ha. reflexivity.
Qed.

(** The cells of a coerced score column have the dtype of the column. *)
Lemma clean_games_dtype (gs : list (Games.row cell)) (g : Games.row num) :
  In g (clean_games f gs) ->
  is_int (Games.PTS_home g) = integral f (map Games.PTS_home gs) /\
  is_int (Games.PTS_away g) = integral f (map Games.PTS_away gs).
Proof.
  intros H. apply clean_games_In in H. destruct H as (r & Hr & -> & _).
  unfold coerce_game, as_column. simpl. split.
  - destruct (integral f (map Games.PTS_home gs)) eqn:E; [|reflexivity].
    unfold integral in E. rewrite forallb_forall in E.
    apply E, in_map, Hr.
  - destruct (integral f (map Games.PTS_away gs)) eqn:E; [|reflexivity].
    unfold integral in E. rewrite forallb_forall in E.
    apply E, in_map, Hr.
Qed.

(** A detail row whose MIN cleans to null leaves no trace either. *)
Lemma clean_game_details_drop (d1 d2 : list (Details.row cell cell))
      (d : Details.row cell cell) (m : float) :
  convert_minutes f (Details.MIN d) = Ok m -> isna m = true ->
  clean_game_details f (d1 ++ d :: d2) =
    clean_game_details f (d1 ++ d2).
Proof.
  intros Hm Hna. rewrite !clean_game_details_rows, !apply_app.
  destruct (apply (clean_detail f) d1) as [r1|]; simpl; [|reflexivity].
  unfold clean_detail at 1. rewrite Hm. simpl.
  destruct (apply (clean_detail f) d2) as [r2|]; simpl; [|reflexivity].
  rewrite !filter_app. cbn [filter].
  unfold detail_complete at 2, notna. simpl. rewrite Hna. reflexivity.
Qed.

(** A detail row whose MIN is read as a number is kept, whatever its
    PTS, AST and REB cells hold. *)
Lemma clean_game_details_keep (ds : list (Details.row cell cell))
      (rows : list (Details.row float float))
      (d : Details.row cell cell) (m : float) :
  clean_game_details f ds = Ok rows ->
  In d ds -> convert_minutes f (Details.MIN d) = Ok m -> isna m = false ->
  In (set_MIN (coerce_detail f d) m) rows.
Proof.
  rewrite clean_game_details_rows. revert rows.
  induction ds as [|a r IH]; intros rows H Hin Hm Hna; [destruct Hin|].
  simpl in H.
  destruct ((clean_detail f) a) as [a'|] eqn:Ha; simpl in H; [|discriminate].
  destruct (apply (clean_detail f) r) as [r'|]; simpl in H; [|discriminate].
  injection H as <-. destruct Hin as [-> | Hin].
  - unfold clean_detail in Ha. rewrite Hm in Ha. injection Ha as <-.
    cbn [filter]. unfold detail_complete at 1, notna. simpl. rewrite Hna.
    left. reflexivity.
  - cbn [filter]. specialize (IH _ eq_refl Hin Hm Hna).
    destruct (detail_complete a'); [right|]; exact IH.
Qed.

Lemma clean_game_details_In (ds : list (Details.row cell cell))
      (rows : list (Details.row float float))
      (r : Details.row float float) :
  clean_game_details f ds = Ok rows -> In r rows ->
  isna (Details.MIN r) = false /\
  exists d, In d ds /\ (clean_detail f) d = Ok r.
Proof.
  rewrite clean_game_details_rows. revert rows.
  induction ds as [|a l IH]; intros rows H Hin; simpl in H.
  - injection H as <-. destruct Hin.
  - destruct ((clean_detail f) a) as [a'|] eqn:Ha; simpl in H; [|discriminate].
    destruct (apply (clean_detail f) l) as [l'|]; simpl in H; [|discriminate].
    injection H as <-. cbn [filter] in Hin.
    destruct (detail_complete a') eqn:Hc.
    + destruct Hin as [<- | Hin].
      * split; [|exists a; split; [left; reflexivity | exact Ha]].
        unfold detail_complete, notna in Hc.
        apply negb_true_iff in Hc. exact Hc.
      * destruct (IH _ eq_refl Hin) as [H1 (d & Hd & Hr)].
        split; [exact H1 | exists d; split; [right; exact Hd | exact Hr]].
    + destruct (IH _ eq_refl Hin) as [H1 (d & Hd & Hr)].
      split; [exact H1 | exists d; split; [right; exact Hd | exact Hr]].
Qed.


Lemma clean_game_details_raises (ds : list (Details.row cell cell))
      (d : Details.row cell cell) (e : exn) :
  In d ds -> convert_minutes f (Details.MIN d) = Raise e ->
  clean_game_details f ds = Raise ValueError.
Proof.
  intros Hin He. rewrite clean_game_details_rows.
  destruct (apply_raises (clean_detail f) ds d e Hin) as [e' ->].
  - unfold clean_detail. rewrite He. reflexivity.
  - destruct e'. reflexivity.
Qed.

End CleaningFacts.

(* ================================================================== *)
(** ** Facts about the pandas operations *)
(* ================================================================== *)

Section StableSortFacts.

Context {A : Type}.
Variable leb : A -> A -> bool.

Lemma insert_perm (x : A) (l : list A) :
  Permutation (insert leb x l) (x :: l).
Proof.
  induction l as [|y r IH]; simpl; [reflexivity|].
  destruct (leb x y); [reflexivity|].
  rewrite IH. apply perm_swap.
Qed.

Lemma stable_sort_perm (l : list A) : Permutation (stable_sort leb l) l.
Proof.
  induction l as [|x r IH]; simpl; [reflexivity|].
  rewrite insert_perm. constructor. exact IH.
Qed.

Lemma stable_sort_In (l : list A) (x : A) :
  In x (stable_sort leb l) <-> In x l.
Proof.
  split; apply Permutation_in;
    [|apply Permutation_sym]; apply stable_sort_perm.
Qed.

Lemma stable_sort_length (l : list A) :
  List.length (stable_sort leb l) = List.length l.
Proof. apply Permutation_length, stable_sort_perm. Qed.

(** Rows that may stay in front of one another keep their order. *)
Lemma insert_filter (p : A -> bool) (x : A) (l : list A) :
  (forall y, p x = true -> p y = true -> leb x y = true) ->
  filter p (insert leb x l) = filter p (x :: l).
Proof.
  intros Hp. induction l as [|y r IH]; [reflexivity|].
  cbn [insert]. destruct (leb x y) eqn:Hxy; [reflexivity|].
  cbn [filter] in *. rewrite IH.
  destruct (p x) eqn:Hx; [|reflexivity].
  destruct (p y) eqn:Hy; [|reflexivity].
  rewrite (Hp y eq_refl Hy) in Hxy. discriminate.
Qed.

Lemma stable_sort_filter (p : A -> bool) (l : list A) :
  (forall x y, p x = true -> p y = true -> leb x y = true) ->
  filter p (stable_sort leb l) = filter p l.
Proof.
  intros Hp. induction l as [|x r IH]; [reflexivity|].
  cbn [stable_sort]. rewrite insert_filter by (apply Hp).
  cbn [filter]. rewrite IH. reflexivity.
Qed.

Hypothesis leb_total : forall x y, leb x y = false -> leb y x = true.
Hypothesis leb_trans :
  forall x y z, leb x y = true -> leb y z = true -> leb x z = true.

Lemma insert_sorted (x : A) (l : list A) :
  StronglySorted (fun a b => leb a b = true) l ->
  StronglySorted (fun a b => leb a b = true) (insert leb x l).
Proof.
  induction 1 as [|y r Hr IH Hy]; simpl.
  - constructor; constructor.
  - destruct (leb x y) eqn:Hxy.
    + constructor; [constructor; assumption|].
      constructor; [exact Hxy|].
      eapply Forall_impl; [|exact Hy].
      intros z Hz. eapply leb_trans; eassumption.
    + constructor; [exact IH|].
      apply Forall_forall. intros z Hz.
      apply (Permutation_in _ (insert_perm x r)) in Hz.
      destruct Hz as [<- | Hz]; [apply leb_total, Hxy|].
      revert z Hz. apply Forall_forall. exact Hy.
Qed.

Lemma stable_sort_sorted (l : list A) :
  StronglySorted (fun a b => leb a b = true) (stable_sort leb l).
Proof.
  induction l as [|x r IH]; simpl; [constructor|].
  apply insert_sorted, IH.
Qed.

End StableSortFacts.

Section GroupByFacts.

Context {K R : Type}.
Variable eqb : K -> K -> bool.
Variable leb : K -> K -> bool.
Variable key : R -> option K.

Hypothesis eqb_eq : forall a b, eqb a b = true <-> a = b.

Lemma has_key_iff (k : K) (r : R) :
  has_key eqb key k r = true <-> key r = Some k.
Proof.
  unfold has_key. destruct (key r) as [k'|].
  - rewrite eqb_eq. split; congruence.
  - split; discriminate.
Qed.

Lemma group_rows_snoc (rows : list R) (r : R) :
  group_rows eqb key (rows ++ [r]) =
    group_step eqb key (group_rows eqb key rows) r.
Proof. unfold group_rows. rewrite fold_left_app. reflexivity. Qed.

(** A row with a null key enters no group. *)
Lemma group_rows_null (l1 l2 : list R) (r : R) :
  key r = None ->
  group_rows eqb key (l1 ++ r :: l2) = group_rows eqb key (l1 ++ l2).
Proof.
  intros H. unfold group_rows. rewrite !fold_left_app. cbn [fold_left].
  unfold group_step at 2. rewrite H. reflexivity.
Qed.

Lemma add_to_group_keys (k : K) (r : R) (gs : list (K * list R)) :
  forall k', In k' (map fst (add_to_group eqb k r gs)) <->
             k' = k \/ In k' (map fst gs).
Proof.
  induction gs as [|[k0 rs] gs IH]; intros k'; simpl.
  - intuition.
  - destruct (eqb k k0) eqn:E; simpl.
    + apply eqb_eq in E. subst k0. intuition.
    + rewrite IH. intuition.
Qed.

Lemma add_to_group_NoDup (k : K) (r : R) (gs : list (K * list R)) :
  NoDup (map fst gs) -> NoDup (map fst (add_to_group eqb k r gs)).
Proof.
  induction gs as [|[k0 rs] gs IH]; simpl; intros H.
  - constructor; [intros []|constructor].
  - inversion H as [|? ? Hn Hd]; subst.
    destruct (eqb k k0) eqn:E; simpl.
    + constructor; assumption.
    + constructor; [|apply IH, Hd].
      rewrite add_to_group_keys. intros [-> | Hin]; [|exact (Hn Hin)].
      assert (eqb k k = true) by (apply eqb_eq; reflexivity). congruence.
Qed.

Lemma add_to_group_In (k : K) (r : R) (gs : list (K * list R)) k' rs' :
  NoDup (map fst gs) ->
  In (k', rs') (add_to_group eqb k r gs) ->
  (k' <> k /\ In (k', rs') gs) \/
  (k' = k /\ ((exists rs, In (k, rs) gs /\ rs' = rs ++ [r]) \/
              (~ In k (map fst gs) /\ rs' = [r]))).
Proof.
  induction gs as [|[k0 rs] gs IH]; simpl; intros Hnd.
  - intros [E|[]]. injection E as <- <-. right. split; [reflexivity|].
    right. split; [tauto | reflexivity].
  - inversion Hnd as [|? ? Hn Hd]; subst.
    destruct (eqb k k0) eqn:E; simpl.
    + apply eqb_eq in E. subst k0. intros [H|H].
      * injection H as <- <-. right. split; [reflexivity|].
        left. exists rs. split; [left; reflexivity | reflexivity].
      * left. split; [|right; exact H].
        intros ->. apply Hn. apply in_map_iff.
        exists (k, rs'). split; [reflexivity | exact H].
    + assert (Hne : k0 <> k).
      { intros ->. assert (eqb k k = true) by (apply eqb_eq; reflexivity).
        congruence. }
      intros [H|H].
      * injection H as <- <-. left. split; [exact Hne | left; reflexivity].
      * destruct (IH Hd H) as [[H1 H2] | [H1 [(rs0 & H2 & H3) | [H2 H3]]]].
        -- left. split; [exact H1 | right; exact H2].
        -- right. split; [exact H1|]. left. exists rs0.
           split; [right; exact H2 | exact H3].
        -- right. split; [exact H1|]. right. split; [|exact H3].
           intros [H4|H4]; [exact (Hne H4) | exact (H2 H4)].
Qed.

Lemma filter_nil {X : Type} (p : X -> bool) (l : list X) :
  (forall x, In x l -> p x = false) -> filter p l = [].
Proof.
  induction l as [|x r IH]; simpl; intros H; [reflexivity|].
  rewrite (H x (or_introl eq_refl)). apply IH. intros y Hy.
  apply H. right. exact Hy.
Qed.

Lemma grouped_step (rows : list R) (gs : list (K * list R)) (r : R) :
  grouped eqb key rows gs ->
grouped eqb key (rows ++ [r]) (group_step eqb key gs r).
Proof.
  intros (Hnd & Hrows & Hkeys). unfold group_step.
  destruct (key r) as [k|] eqn:Hk.
  - split; [apply add_to_group_NoDup, Hnd|]. split.
    + intros k' rs' Hin. rewrite filter_app. cbn [filter].
      destruct (add_to_group_In k r gs k' rs' Hnd Hin)
        as [[H1 H2] | [-> [(rs0 & H2 & ->) | [H2 ->]]]].
      * destruct (Hrows _ _ H2) as [-> Hne].
        replace (has_key eqb key k' r) with false.
        -- rewrite app_nil_r. split; [reflexivity | exact Hne].
        -- symmetry. apply not_true_is_false. rewrite has_key_iff.
           congruence.
      * destruct (Hrows _ _ H2) as [-> Hne].
        replace (has_key eqb key k r) with true
          by (symmetry; apply has_key_iff; exact Hk).
        split; [reflexivity|]. intros E. apply app_eq_nil in E.
        destruct E as [_ E]. discriminate.
      * replace (has_key eqb key k r) with true
          by (symmetry; apply has_key_iff; exact Hk).
        rewrite filter_nil; [split; [reflexivity | discriminate]|].
        intros x Hx. apply not_true_is_false. rewrite has_key_iff.
        intros Hkx. apply H2, Hkeys. eauto.
    + intros k'. rewrite add_to_group_keys, Hkeys. split.
      * intros [-> | (x & Hx & Hkx)].
        -- exists r. split; [apply in_or_app; right; left; reflexivity|].
           exact Hk.
        -- exists x. split; [apply in_or_app; left; exact Hx | exact Hkx].
      * intros (x & Hx & Hkx). apply in_app_or in Hx.
        destruct Hx as [Hx | [<- | []]]; [right; eauto | left; congruence].
  - split; [exact Hnd|]. split.
    + intros k' rs' Hin. rewrite filter_app. cbn [filter].
      replace (has_key eqb key k' r) with false.
      * rewrite app_nil_r. apply Hrows, Hin.
      * symmetry. apply not_true_is_false. rewrite has_key_iff.
        congruence.
    + intros k'. rewrite Hkeys. split; intros (x & Hx & Hkx).
      * exists x. split; [apply in_or_app; left; exact Hx | exact Hkx].
      * apply in_app_or in Hx.
        destruct Hx as [Hx | [<- | []]]; [eauto | congruence].
Qed.

Lemma group_rows_grouped (rows : list R) :
  grouped eqb key rows (group_rows eqb key rows).
Proof.
  induction rows as [|r rows IH] using rev_ind.
  - split; [constructor|]. split.
    + intros k rs [].
    + intros k. simpl. split; [intros [] | intros (r & [] & _)].
  - rewrite group_rows_snoc. apply grouped_step, IH.
Qed.

(** Sorting the groups changes their order only. *)
Lemma groupby_grouped (rows : list R) :
  grouped eqb key rows (groupby eqb leb key rows).
Proof.
  destruct (group_rows_grouped rows) as (Hnd & Hrows & Hkeys).
  unfold groupby.
  set (le := fun a b : K * list R => leb (fst a) (fst b)).
  pose proof (stable_sort_perm le (group_rows eqb key rows)) as Hp.
  split; [|split].
  - eapply Permutation_NoDup; [|exact Hnd].
    apply Permutation_map, Permutation_sym, Hp.
  - intros k rs Hin. apply Hrows.
    eapply Permutation_in; [exact Hp | exact Hin].
  - intros k. rewrite <- Hkeys. split; apply Permutation_in;
      apply Permutation_map; [|apply Permutation_sym]; exact Hp.
Qed.

Lemma groupby_null (l1 l2 : list R) (r : R) :
  key r = None ->
  groupby eqb leb key (l1 ++ r :: l2) = groupby eqb leb key (l1 ++ l2).
Proof.
intros H. unfold groupby. rewrite group_rows_null by exact H. reflexivity.
Qed.

(** There are as many groups as distinct keys. *)
Lemma groupby_length (dec : forall a b : K, {a = b} + {a <> b})
      (keys : list K) (rows : list R) :
  (forall k, In k keys <-> exists r, In r rows /\ key r = Some k) ->
  List.length (groupby eqb leb key rows) = List.length (nodup dec keys).
Proof.
  intros Hk. destruct (groupby_grouped rows) as (Hnd & _ & Hkeys).
  rewrite <- (length_map fst).
  apply Permutation_length, NoDup_Permutation;
    [exact Hnd | apply NoDup_nodup|].
  intros k. rewrite nodup_In, Hkeys, Hk. reflexivity.
Qed.

End GroupByFacts.

(* ================================================================== *)
(** ** Facts about the derived tables *)
(* ================================================================== *)

Lemma Z_eqb_eq (a b : Z) : Z.eqb a b = true <-> a = b.
Proof. apply Z.eqb_eq. Qed.

Lemma pair_eqb_eq (a b : Z * string) : pair_eqb a b = true <-> a = b.
Proof.
  unfold pair_eqb. destruct a as [x s], b as [y t]. simpl.
  rewrite andb_true_iff, Z.eqb_eq, String.eqb_eq. split.
  - intros [-> ->]. reflexivity.
  - intros E. injection E as -> ->. auto.
Qed.

Lemma ident_eqb_eq (a b : ident) : ident_eqb a b = true <-> a = b.
Proof.
  destruct a as [x|], b as [y|]; simpl;
    rewrite ?Z.eqb_eq; split; congruence.
Qed.

(** An integer of int64 is its own int64 value. *)
Lemma wrap64_small (z : Z) : - 2 ^ 63 <= z < 2 ^ 63 -> wrap64 z = z.
Proof.
  unfold wrap64. change (2 ^ 63) with 9223372036854775808.
  change (2 ^ 64) with 18446744073709551616. intros H.
  rewrite Z.mod_small by lia. lia.
Qed.

Lemma wrap64_range (z : Z) : - 2 ^ 63 <= wrap64 z < 2 ^ 63.
Proof.
  unfold wrap64. change (2 ^ 63) with 9223372036854775808.
  change (2 ^ 64) with 18446744073709551616.
  pose proof (Z.mod_pos_bound (z + 9223372036854775808)
                18446744073709551616 eq_refl). lia.
Qed.

Lemma wrap64_idem (z : Z) : wrap64 (wrap64 z) = wrap64 z.
Proof. apply wrap64_small, wrap64_range. Qed.

(** Line 59 on two int64 columns, and on any other two columns. *)
Lemma TOTAL_POINTS_int64 (g : Games.row num) (x y : Z) :
  Games.PTS_home g = Int x -> Games.PTS_away g = Int y ->
  TOTAL_POINTS g = Int (wrap64 (x + y)) /\
  (- 2 ^ 63 <= x + y < 2 ^ 63 -> total_points g = of_Z (x + y)).
Proof.
  intros Hx Hy. unfold total_points, TOTAL_POINTS. rewrite Hx, Hy.
  split; [reflexivity|]. intros H. simpl.
  rewrite wrap64_idem, wrap64_small by exact H. reflexivity.
Qed.

Lemma TOTAL_POINTS_float64 (g : Games.row num) :
  is_int (Games.PTS_home g) && is_int (Games.PTS_away g) = false ->
  TOTAL_POINTS g = Flt (add (pts_home g) (pts_away g)).
Proof.
  unfold TOTAL_POINTS, pts_home, pts_away.
  destruct (Games.PTS_home g), (Games.PTS_away g);
    simpl; intros H; [discriminate | | |]; reflexivity.
Qed.

Lemma total_points_notna (g : Games.row num) :
  is_finite (pts_home g) = true -> is_finite (pts_away g) = true ->
  isna (total_points g) = false.
Proof.
  unfold total_points, TOTAL_POINTS, pts_home, pts_away.
  destruct (Games.PTS_home g) as [x|x], (Games.PTS_away g) as [y|y];
    cbn [num_add as_float]; intros Hx Hy;
    [apply Float64Facts.binary_normalize_notna | | |];
    apply Float64Facts.add_finite_notna; assumption.
Qed.

(** Without a null cell the mean is the sum over the number of cells. *)
Lemma mean_no_null (xs : list float) :
  xs <> [] -> (forall x, In x xs -> isna x = false) ->
  mean xs = div (fsum xs) (of_nat (List.length xs)).
Proof.
  intros Hne Hx. unfold mean.
  assert (E : filter notna xs = xs).
  { clear Hne. induction xs as [|x r IH]; [reflexivity|]. simpl.
    unfold notna at 1. rewrite (Hx x (or_introl eq_refl)). simpl.
    rewrite IH; [reflexivity|]. intros y Hy. apply Hx. right. exact Hy. }
  rewrite E. destruct xs; [congruence | reflexivity].
Qed.

(** With null cells only, the mean is null. *)
Lemma mean_all_null (xs : list float) :
  (forall x, In x xs -> isna x = true) -> mean xs = nan.
Proof.
  intros Hx. unfold mean. rewrite filter_nil; [reflexivity|].
  intros x Hin. unfold notna. rewrite (Hx x Hin). reflexivity.
Qed.

(** The mean looks at the non-null cells only. *)
Lemma mean_skips_null (xs : list float) :
  mean xs = mean (filter notna xs).
Proof.
  unfold mean.
  assert (E : filter notna (filter notna xs) = filter notna xs).
  { induction xs as [|x r IH]; [reflexivity|]. simpl.
    destruct (notna x) eqn:Hx; simpl; [rewrite Hx, IH|]; auto. }
  rewrite E. reflexivity.
Qed.

(** A group-and-reduce: one output row per group, computed from the rows
    of its key. *)
Lemma groupby_map_In {K R T : Type} (eqb leb : K -> K -> bool)
      (key : R -> option K) (agg : K * list R -> T) (rows : list R) (t : T) :
  (forall a b, eqb a b = true <-> a = b) ->
  In t (map agg (groupby eqb leb key rows)) <->
  exists k, (exists r, In r rows /\ key r = Some k) /\
            t = agg (k, filter (has_key eqb key k) rows).
Proof.
  intros Heq.
  destruct (groupby_grouped eqb leb key Heq rows) as (Hnd & Hrows & Hkeys).
  rewrite in_map_iff. split.
  - intros ([k rs] & <- & Hin). exists k. split.
    + apply Hkeys. apply in_map_iff. exists (k, rs). auto.
    + destruct (Hrows k rs Hin) as [<- _]. reflexivity.
  - intros (k & Hk & ->). apply Hkeys in Hk. apply in_map_iff in Hk.
    destruct Hk as ([k' rs] & Hfst & Hin). simpl in Hfst. subst k'.
    exists (k, rs). split; [|exact Hin].
    destruct (Hrows k rs Hin) as [<- _]. reflexivity.
Qed.

Lemma seasons_In (games : list (Games.row num)) (s : Z) :
  In s (seasons games) <-> exists g, In g games /\ Games.SEASON g = Some s.
Proof.
  unfold seasons. rewrite in_flat_map. split.
  - intros (g & Hg & Hs). exists g. split; [exact Hg|].
    destruct (Games.SEASON g); [destruct Hs as [<- | []]; reflexivity|].
    destruct Hs.
  - intros (g & Hg & Hs). exists g. split; [exact Hg|]. rewrite Hs.
    left. reflexivity.
Qed.

Lemma season_trend_In (games : list (Games.row num)) (t : SeasonTrend.row) :
  In t (season_trend games) <->
  exists s, In s (seasons games) /\
    t = {| SeasonTrend.SEASON := s;
           SeasonTrend.TOTAL_POINTS :=
             mean (map total_points (filter (in_season s) games)) |}.
Proof.
  unfold season_trend. rewrite groupby_map_In by apply Z_eqb_eq.
  split; intros (s & Hs & ->); exists s;
    (split; [apply seasons_In; exact Hs | reflexivity]).
Qed.

Lemma season_trend_keys (games : list (Games.row num)) :
  map SeasonTrend.SEASON (season_trend games) =
    map fst (groupby Z.eqb Z.leb Games.SEASON games).
Proof. unfold season_trend. rewrite map_map. reflexivity. Qed.

Lemma season_trend_NoDup (games : list (Games.row num)) :
  NoDup (map SeasonTrend.SEASON (season_trend games)).
Proof.
  rewrite season_trend_keys.
  apply (groupby_grouped Z.eqb Z.leb Games.SEASON Z_eqb_eq games).
Qed.

Lemma season_trend_length (games : list (Games.row num)) :
  List.length (season_trend games) = List.length (distinct_seasons games).
Proof.
  unfold season_trend, distinct_seasons. rewrite length_map.
  apply groupby_length; [apply Z_eqb_eq|]. apply seasons_In.
Qed.

Lemma home_away_trend_In (games : list (Games.row num)) (t : HomeAway.row) :
  In t (home_away_trend games) <->
  exists s, In s (seasons games) /\
    t = {| HomeAway.SEASON := s;
           HomeAway.PTS_home :=
             mean (map pts_home (filter (in_season s) games));
           HomeAway.PTS_away :=
             mean (map pts_away (filter (in_season s) games)) |}.
Proof.
  unfold home_away_trend. rewrite groupby_map_In by apply Z_eqb_eq.
  split; intros (s & Hs & ->); exists s;
    (split; [apply seasons_In; exact Hs | reflexivity]).
Qed.

Lemma home_away_trend_length (games : list (Games.row num)) :
  List.length (home_away_trend games) = List.length (distinct_seasons games).
Proof.
  unfold home_away_trend, distinct_seasons. rewrite length_map.
  apply groupby_length; [apply Z_eqb_eq|]. apply seasons_In.
Qed.

(** The long table: the Home row of every season, then the Away row of
    every season. *)
Lemma home_away_long_rows (games : list (Games.row num)) :
  home_away_long games =
    map (fun r => {| HomeAwayLong.SEASON := HomeAway.SEASON r;
                     HomeAwayLong.Location := Some "Home";
                     HomeAwayLong.Average_Points := HomeAway.PTS_home r |})
        (home_away_trend games)
    ++ map (fun r => {| HomeAwayLong.SEASON := HomeAway.SEASON r;
                        HomeAwayLong.Location := Some "Away";
                        HomeAwayLong.Average_Points := HomeAway.PTS_away r |})
        (home_away_trend games).
Proof.
  unfold home_away_long, melt. cbn [flat_map fst snd].
  rewrite app_nil_r, map_app, !map_map. reflexivity.
Qed.

(* ================================================================== *)
(** ** The order of the ranking table *)
(* ================================================================== *)

Section OrderWithTies.

Context {A : Type}.
Variable cmp : A -> A -> comparison.
Hypothesis Hcmp : order_with_ties cmp.

Lemma cmp_leb_total (x y : A) :
  cmp_leb cmp x y = false -> cmp_leb cmp y x = true.
Proof.
  destruct Hcmp as (Ho & _ & _). unfold cmp_leb. rewrite (Ho x y).
  destruct (cmp x y); simpl; congruence.
Qed.

Lemma cmp_eq_r (a b c : A) : cmp a b = Eq -> cmp c a = cmp c b.
Proof.
  destruct Hcmp as (Ho & _ & He). intros H.
  rewrite (Ho a c), (Ho b c), (He a b c H). reflexivity.
Qed.

Lemma cmp_leb_trans (x y z : A) :
  cmp_leb cmp x y = true -> cmp_leb cmp y z = true -> cmp_leb cmp x z = true.
Proof.
  destruct Hcmp as (Ho & Ht & He). unfold cmp_leb.
  destruct (cmp x y) eqn:Exy; [| |discriminate]; intros _.
  - rewrite (He x y z Exy). auto.
  - destruct (cmp y z) eqn:Eyz; [| |discriminate]; intros _.
    + rewrite <- (cmp_eq_r y z x Eyz), Exy. reflexivity.
    + rewrite (Ht x y z Exy Eyz). reflexivity.
Qed.

Lemma cmp_tie_leb (k x y : A) :
  cmp k x = Eq -> cmp k y = Eq -> cmp_leb cmp x y = true.
Proof.
  destruct Hcmp as (Ho & Ht & He). intros Hx Hy. unfold cmp_leb.
  rewrite <- (He k x y Hx), Hy. reflexivity.
Qed.

End OrderWithTies.

(** Two keys in turn: the second one decides among the ties of the
    first. *)
Lemma order_lex {A K1 K2 : Type} (p1 : A -> K1) (p2 : A -> K2)
      (c1 : K1 -> K1 -> comparison) (c2 : K2 -> K2 -> comparison) :
  order_with_ties c1 -> order_with_ties c2 ->
  order_with_ties (fun a b => match c1 (p1 a) (p1 b) with
                              | Eq => c2 (p2 a) (p2 b)
                              | c => c
                              end).
Proof.
  intros (Ho1 & Ht1 & He1) (Ho2 & Ht2 & He2). split; [|split].
  - intros a b. rewrite (Ho1 (p1 a) (p1 b)), (Ho2 (p2 a) (p2 b)).
    destruct (c1 (p1 a) (p1 b)); reflexivity.
  - intros a b c.
    destruct (c1 (p1 a) (p1 b)) eqn:Eab; [| |discriminate].
    + rewrite (He1 _ _ (p1 c) Eab).
      destruct (c1 (p1 b) (p1 c)); [apply Ht2 | auto | discriminate].
    + intros _.
      destruct (c1 (p1 b) (p1 c)) eqn:Ebc; [| |discriminate]; intros _.
      * assert (E : c1 (p1 a) (p1 c) = c1 (p1 a) (p1 b)).
        { rewrite (Ho1 (p1 c) (p1 a)), (Ho1 (p1 b) (p1 a)).
          f_equal. symmetry. apply He1. exact Ebc. }
        rewrite E, Eab. reflexivity.
      * rewrite (Ht1 _ _ _ Eab Ebc). reflexivity.
  - intros a b c.
    destruct (c1 (p1 a) (p1 b)) eqn:Eab; try discriminate.
    intros E2. rewrite (He1 _ _ (p1 c) Eab), (He2 _ _ (p2 c) E2).
    reflexivity.
Qed.

Lemma ident_desc_order : order_with_ties ident_desc.
Proof.
  split; [|split].
  - intros [x|] [y|]; simpl; try reflexivity. apply Z.compare_antisym.
  - intros [x|] [y|] [z|]; simpl; try congruence.
    rewrite !Z.compare_lt_iff. lia.
  - intros [x|] [y|] [z|]; simpl; try congruence.
    intros H. apply Z.compare_eq in H. subst. reflexivity.
Qed.

Lemma ident_desc_eq (a b : ident) : ident_desc a b = Eq <-> a = b.
Proof.
  destruct a as [x|], b as [y|]; simpl; try (split; congruence).
  rewrite Z.compare_eq_iff. split; congruence.
Qed.


Lemma order_ext {A : Type} (c c' : A -> A -> comparison) :
  (forall a b, c a b = c' a b) -> order_with_ties c' -> order_with_ties c.
Proof.
  intros E (Ho & Ht & He). split; [|split].
  - intros a b. rewrite !E. apply Ho.
  - intros a b x. rewrite !E. apply Ht.
  - intros a b x. rewrite !E. apply He.
Qed.

Lemma order_Z : order_with_ties Z.compare.
Proof.
  split; [|split].
  - intros a b. apply Z.compare_antisym.
  - intros a b c. rewrite !Z.compare_lt_iff. lia.
  - intros a b c H. apply Z.compare_eq in H. subst. reflexivity.
Qed.

Lemma order_key : order_with_ties key_compare.
Proof.
  unfold key_compare.
  apply (order_lex fst snd Z.compare
           (fun x y => match Z.compare (fst x) (fst y) with
                       | Eq => Z.compare (snd x) (snd y)
                       | c => c
                       end)); [exact order_Z|].
  apply (order_lex fst snd Z.compare Z.compare); exact order_Z.
Qed.

(** The descending order of the floats is the order of their keys. *)
Lemma float_desc_key (a b : float) :
  float_desc a b = key_compare (float_key a) (float_key b).
Proof.
  unfold float_desc, key_compare.
  destruct a as [[]|[]| |[] ma ea], b as [[]|[]| |[] mb eb];
    try reflexivity; cbn [SFcompare float_key fst snd isna].
  - change (Z.compare 1 1) with Eq. cbv iota.
    destruct (Z.compare_spec eb ea) as [->|H|H].
    + rewrite Z.compare_refl.
      change (Z.compare (Z.pos ma) (Z.pos mb)) with (Pos.compare ma mb).
      rewrite (Pos.compare_antisym mb ma). reflexivity.
    + apply Z.compare_gt_iff in H. rewrite H. reflexivity.
    + apply Z.compare_lt_iff in H. rewrite H. reflexivity.
  - change (Z.compare (-1) (-1)) with Eq. cbv iota.
    rewrite Z.compare_opp.
    destruct (Z.compare eb ea); try reflexivity.
    change (Z.compare (Z.neg ma) (Z.neg mb))
      with (CompOpp (Pos.compare ma mb)).
    change (Pos.compare_cont Eq mb ma) with (Pos.compare mb ma).
    apply Pos.compare_antisym.
Qed.

Lemma float_desc_order : order_with_ties float_desc.
Proof.
  apply (order_ext _ (fun a b => key_compare (float_key a) (float_key b)));
    [exact float_desc_key|].
  destruct order_key as (Ho & Ht & He). split; [|split].
  - intros a b. apply Ho.
  - intros a b c. apply Ht.
  - intros a b c. apply He.
Qed.

Lemma float_desc_refl (a : float) : float_desc a a = Eq.
Proof.
  destruct float_desc_order as (Ho & _ & _). specialize (Ho a a).
  destruct (float_desc a a); simpl in Ho; congruence.
Qed.

Lemma ranking_order_order : order_with_ties ranking_order.
Proof.
  exact (order_lex RankingTable.SEASON_ID RankingTable.W_PCT
           ident_desc float_desc ident_desc_order float_desc_order).
Qed.

Lemma ranking_leb_total (x y : RankingTable.row) :
  ranking_leb x y = false -> ranking_leb y x = true.
Proof. exact (cmp_leb_total ranking_order ranking_order_order x y). Qed.

Lemma ranking_leb_trans (x y z : RankingTable.row) :
  ranking_leb x y = true -> ranking_leb y z = true -> ranking_leb x z = true.
Proof. exact (cmp_leb_trans ranking_order ranking_order_order x y z). Qed.

Lemma same_keys_leb (k x y : RankingTable.row) :
  same_keys k x = true -> same_keys k y = true -> ranking_leb x y = true.
Proof.
  unfold same_keys. intros Hx Hy.
  apply (cmp_tie_leb ranking_order ranking_order_order k).
  - destruct (ranking_order k x); congruence.
  - destruct (ranking_order k y); congruence.
Qed.

(** Rows with the same two cells are not told apart. *)
Lemma same_keys_equal (a b : RankingTable.row) :
  RankingTable.SEASON_ID a = RankingTable.SEASON_ID b ->
  RankingTable.W_PCT a = RankingTable.W_PCT b ->
  same_keys a b = true.
Proof.
  intros Hs Hw. unfold same_keys, ranking_order.
  rewrite Hs, Hw, (proj2 (ident_desc_eq _ _) eq_refl), float_desc_refl.
  reflexivity.
Qed.

(* ================================================================== *)
(** ** Joins, duplicates and the views built on them *)
(* ================================================================== *)

Lemma merge_inner_In {L R : Type} (on : L -> R -> bool)
      (left : list L) (right : list R) (l : L) (r : R) :
  In (l, r) (merge_inner on left right) <->
  In l left /\ In r right /\ on l r = true.
Proof.
  unfold merge_inner. rewrite in_flat_map. split.
  - intros (l' & Hl & H). apply in_map_iff in H.
    destruct H as (r' & E & Hr). injection E as -> ->.
    apply filter_In in Hr. tauto.
  - intros (Hl & Hr & Hon). exists l. split; [exact Hl|].
    apply in_map, filter_In. auto.
Qed.

Lemma merge_left_app {L R : Type} (on : L -> R -> bool)
      (l1 l2 : list L) (right : list R) :
  merge_left on (l1 ++ l2) right =
    merge_left on l1 right ++ merge_left on l2 right.
Proof. unfold merge_left. apply flat_map_app. Qed.

(** A left row without a match gives one row, with nulls on the right. *)
Lemma merge_left_unmatched {L R : Type} (on : L -> R -> bool)
      (l : L) (right : list R) :
  (forall r, In r right -> on l r = false) ->
  merge_left on [l] right = [(l, None)].
Proof.
  intros H. unfold merge_left. cbn [flat_map].
  rewrite filter_nil by exact H. reflexivity.
Qed.

Lemma merge_left_matched_In {L R : Type} (on : L -> R -> bool)
      (left : list L) (right : list R) (l : L) (r : R) :
  In (l, Some r) (merge_left on left right) <->
  In l left /\ In r right /\ on l r = true.
Proof.
  unfold merge_left. rewrite in_flat_map. split.
  - intros (l' & Hl & H).
    destruct (filter (on l') right) as [|m ms] eqn:E.
    + destruct H as [H|[]]. discriminate.
    + apply in_map_iff in H. destruct H as (r' & E' & Hr).
      injection E' as -> ->. rewrite <- E in Hr.
      apply filter_In in Hr. tauto.
  - intros (Hl & Hr & Hon). exists l. split; [exact Hl|].
    assert (Hin : In r (filter (on l) right)) by (apply filter_In; auto).
    destruct (filter (on l) right) as [|m ms]; [destruct Hin|].
    apply in_map_iff. exists r. auto.
Qed.

Lemma drop_duplicates_from_spec {A : Type} (eqb : A -> A -> bool)
      (seen l : list A) :
  (forall a b, eqb a b = true <-> a = b) ->
  NoDup (drop_duplicates_from eqb seen l) /\
  forall x, In x (drop_duplicates_from eqb seen l) <->
            In x l /\ ~ In x seen.
Proof.
  intros Heq. revert seen. induction l as [|y r IH]; intros seen; simpl.
  - split; [constructor | tauto].
  - destruct (existsb (eqb y) seen) eqn:E.
    + apply existsb_exists in E. destruct E as (z & Hz & Hyz).
      apply Heq in Hyz. subst z.
      destruct (IH seen) as [Hnd Hin]. split; [exact Hnd|].
      intros x. rewrite Hin. split; [tauto|].
      intros [[-> | H] Hn]; [contradiction | tauto].
    + assert (Hy : ~ In y seen).
      { intros Hy. apply not_true_iff_false in E. apply E.
        apply existsb_exists. exists y. split; [exact Hy|].
        apply Heq. reflexivity. }
      destruct (IH (y :: seen)) as [Hnd Hin]. split.
      * constructor; [|exact Hnd]. rewrite Hin.
        intros [_ H]. apply H. left. reflexivity.
      * intros x. simpl. rewrite Hin. simpl. split.
        -- intros [<- | [H Hn]]; [tauto | split; [right; exact H | tauto]].
        -- intros [[-> | H] Hn]; [left; reflexivity|].
           destruct (eqb y x) eqn:Eyx.
           ++ left. apply Heq. exact Eyx.
           ++ right. split; [exact H|]. intros [-> | Hs]; [|tauto].
              assert (eqb x x = true) by (apply Heq; reflexivity).
              congruence.
Qed.

Lemma player_means_In (game_details : list (Details.row float float))
      (m : PlayerMeans.row) :
  In m (player_means game_details) <->
  exists p, (exists d, In d game_details /\ Details.PLAYER_ID d = Some p) /\
            m = means_of p game_details.
Proof.
  unfold player_means. rewrite groupby_map_In by apply Z_eqb_eq.
  reflexivity.
Qed.

Lemma player_stats_In (game_details : list (Details.row float float))
      (players : list Players.row) (m : PlayerMeans.row) (p : Players.row) :
  In (m, p) (player_stats game_details players) <->
  (exists d, In d game_details /\
             Details.PLAYER_ID d = Some (PlayerMeans.PLAYER_ID m)) /\
  m = means_of (PlayerMeans.PLAYER_ID m) game_details /\
  In p players /\
  Players.PLAYER_ID p = Some (PlayerMeans.PLAYER_ID m).
Proof.
  unfold player_stats. rewrite merge_inner_In, player_means_In, ident_eqb_eq.
  split.
  - intros ((k & Hd & ->) & Hp & E). simpl in *. auto.
  - intros (Hd & Hm & Hp & E). split; [|auto].
    exists (PlayerMeans.PLAYER_ID m). auto.
Qed.

Lemma TeamConf_eqb_eq (a b : TeamConf.row) :
  TeamConf.eqb a b = true <-> a = b.
Proof.
  unfold TeamConf.eqb. destruct a as [t1 c1 s1], b as [t2 c2 s2]. simpl.
  rewrite !andb_true_iff, !ident_eqb_eq. split.
  - intros [[-> Hc] ->]. f_equal.
    destruct c1, c2; try discriminate; [|reflexivity].
    apply String.eqb_eq in Hc. congruence.
  - intros E. injection E as -> -> ->. repeat split.
    destruct c2; [apply String.eqb_refl | reflexivity].
Qed.

(** The distinct combinations of the ranking table. *)
Lemma team_conf_spec (ranking : list Ranking.row) :
  NoDup (team_conf ranking) /\
  forall c, In c (team_conf ranking) <->
            exists r, In r ranking /\ c = combination r.
Proof.
  unfold team_conf, drop_duplicates.
  destruct (drop_duplicates_from_spec TeamConf.eqb []
              (map combination ranking) TeamConf_eqb_eq) as [Hnd Hin].
  split; [exact Hnd|]. intros c.
  change (map _ ranking) with (map combination ranking).
  rewrite Hin, in_map_iff. simpl. split.
  - intros [(r & <- & Hr) _]. eauto.
  - intros (r & Hr & ->). split; [eauto | tauto].
Qed.

Lemma conf_games_matched_In (games : list (Games.row num))
      (ranking : list Ranking.row) (g : Games.row num) (c : TeamConf.row) :
  In (g, Some c) (conf_games games ranking) <->
  In g games /\
  (exists r, In r ranking /\ c = combination r) /\
  Games.HOME_TEAM_ID g = TeamConf.TEAM_ID c.
Proof.
  unfold conf_games. rewrite merge_left_matched_In, ident_eqb_eq.
  rewrite (proj2 (team_conf_spec ranking) c). reflexivity.
Qed.

(** A game whose home team is in no ranking row gives one joined row,
    with a null CONFERENCE. *)
Lemma conf_games_unmatched (g1 g2 : list (Games.row num))
      (g : Games.row num) (ranking : list Ranking.row) :
  (forall r, In r ranking -> Games.HOME_TEAM_ID g <> Ranking.TEAM_ID r) ->
  conf_games (g1 ++ g :: g2) ranking =
    conf_games g1 ranking ++ (g, None) :: conf_games g2 ranking.
Proof.
  intros H. unfold conf_games.
  change (g :: g2) with ([g] ++ g2). rewrite !merge_left_app.
  rewrite merge_left_unmatched; [reflexivity|].
  intros c Hc. apply (proj2 (team_conf_spec ranking)) in Hc.
  destruct Hc as (r & Hr & ->). apply not_true_iff_false.
  rewrite ident_eqb_eq. exact (H r Hr).
Qed.

Lemma conf_trend_unmatched (g1 g2 : list (Games.row num))
      (g : Games.row num) (ranking : list Ranking.row) :
  (forall r, In r ranking -> Games.HOME_TEAM_ID g <> Ranking.TEAM_ID r) ->
  conf_trend (g1 ++ g :: g2) ranking = conf_trend (g1 ++ g2) ranking.
Proof.
  intros H. unfold conf_trend.
  rewrite (conf_games_unmatched g1 g2 g ranking H).
  rewrite groupby_null.
  - unfold conf_games. rewrite merge_left_app. reflexivity.
  - unfold season_conference, joined_CONFERENCE. simpl.
    destruct (Games.SEASON g); reflexivity.
Qed.

Lemma conf_trend_In (games : list (Games.row num))
      (ranking : list Ranking.row) (t : ConfTrend.row) :
  In t (conf_trend games ranking) <->
  exists s c,
    (exists j, In j (conf_games games ranking) /\
               Games.SEASON (fst j) = Some s /\
               joined_CONFERENCE j = Some c) /\
    t = {| ConfTrend.SEASON := s;
           ConfTrend.CONFERENCE := c;
           ConfTrend.PTS_home :=
             mean (map (fun j => pts_home (fst j))
                       (filter (in_season_conference s c)
                               (conf_games games ranking))) |}.
Proof.
  unfold conf_trend. rewrite groupby_map_In by apply pair_eqb_eq. split.
  - intros ([s c] & (j & Hj & Hk) & ->). exists s, c. split; [|reflexivity].
    exists j. split; [exact Hj|]. unfold season_conference in Hk.
    destruct (Games.SEASON (fst j)); [|discriminate].
    destruct (joined_CONFERENCE j); [|discriminate].
    injection Hk as -> ->. auto.
  - intros (s & c & (j & Hj & Hs & Hc) & ->). exists (s, c).
    split; [|reflexivity]. exists j. split; [exact Hj|].
    unfold season_conference. rewrite Hs, Hc. reflexivity.
Qed.

Lemma conf_trend_NoDup (games : list (Games.row num))
      (ranking : list Ranking.row) :
  NoDup (map (fun t => (ConfTrend.SEASON t, ConfTrend.CONFERENCE t))
             (conf_trend games ranking)).
Proof.
  unfold conf_trend. rewrite map_map. simpl.
  rewrite (map_ext _ fst) by (intros [[s c] rs]; reflexivity).
  apply (groupby_grouped pair_eqb pair_leb season_conference pair_eqb_eq).
Qed.

Lemma float_desc_descending (a b : float) :
  float_desc a b <> Gt <-> W_PCT_descending a b.
Proof.
  unfold float_desc, W_PCT_descending, SFleb.
  destruct a as [[]|[]| |[] ma ea], b as [[]|[]| |[] mb eb];
    cbn [SFcompare isna];
    try (split; [intros _; (right; reflexivity) || (left; reflexivity)
                | intros _; discriminate]);
    try (split; [intros H; exfalso; apply H; reflexivity
                | intros [H|H]; discriminate]).
  - destruct (Z.compare eb ea); [destruct (CompOpp _)| |];
      (split; [intros H; (right; reflexivity) || (exfalso; apply H; reflexivity)
              | intros [H|H]; discriminate]).
  - destruct (Z.compare eb ea); [destruct (Pos.compare_cont _ _ _)| |];
      (split; [intros H; (right; reflexivity) || (exfalso; apply H; reflexivity)
              | intros [H|H]; discriminate]).
Qed.

(** The comparison used by the sort says what the leaderboard order says
    in words. *)
Lemma ranking_leb_leaderboard (a b : RankingTable.row) :
  ranking_leb a b = true <-> leaderboard_order a b.
Proof.
  unfold ranking_leb, ranking_order, leaderboard_order, ident_desc.
  destruct (RankingTable.SEASON_ID a) as [x|],
           (RankingTable.SEASON_ID b) as [y|].
  - destruct (Z.compare_spec y x) as [E|E|E].
    + rewrite <- float_desc_descending.
      destruct (float_desc _ _); split;
        try (intros _; right; split; [exact E | discriminate]);
        try (intros _; reflexivity); try discriminate.
      intros [H|[_ H]]; [lia | contradiction].
    + split; [intros _; left; exact E | reflexivity].
    + split; [discriminate | intros [H|[H _]]; lia].
  - split; [exact (fun _ => I) | reflexivity].
  - split; [discriminate | intros []].
  - rewrite <- float_desc_descending.
    destruct (float_desc _ _); split; try discriminate; try reflexivity;
      try (intros H _; discriminate H); intros H; contradiction.
Qed.

(* ================================================================== *)
(** ** The script on small tables *)
(* ================================================================== *)

Example py_float_literals :
  map py_float ["12"; " 30 "; "-0"; "1_000"; "1e3"; ".5"; "Infinity"] =
    [ Some (of_Z 12); Some (of_Z 30); Some (S754_zero true);
      Some (of_Z 1000); Some (of_Z 1000);
      Some (S754_finite false 4503599627370496 (-53));
      Some (S754_infinity false) ].
Proof. reflexivity. Qed.

Example py_float_rejects :
  map py_float [""; "abc"; "1__0"; "1_"; "."; "1e"; "2:3"; "0x10"; "1 2"] =
    [None; None; None; None; None; None; None; None; None].
Proof. reflexivity. Qed.

Example split_durations :
  split ":" "12:30" = ["12"; "30"] /\
  split ":" "1:2:3" = ["1"; "2"; "3"] /\
  split ":" ":" = [""; ""] /\
  split_first ":" "1:2:3" = Some ("1", "2:3").
Proof. repeat split. Qed.

(** The scenario of the specification for MIN: "32:15" is 32.25 and the
    row is kept; a row with an unreadable PTS is kept too, a row with an
    unreadable MIN without colon is dropped. *)
Example clean_game_details_example :
  clean_game_details decimal_to_numeric
    [ detail 201 "32:15" (CStr "21"); detail 202 "n/a" (CStr "8");
      detail 202 "0:00" (CStr "n/a") ] =
  Ok [ {| Details.GAME_ID := Some 1; Details.PLAYER_ID := Some 201;
          Details.MIN := S754_finite false 4538783999459328 (-47);
          Details.PTS := of_Z 21; Details.AST := of_Z 4;
          Details.REB := of_Z 7 |};
       {| Details.GAME_ID := Some 1; Details.PLAYER_ID := Some 202;
          Details.MIN := S754_zero false;
          Details.PTS := nan; Details.AST := of_Z 4;
          Details.REB := of_Z 7 |} ] /\
  py_float "32.25" = Some (S754_finite false 4538783999459328 (-47)).
Proof. split; reflexivity. Qed.

Example team_conf_example :
  team_conf (scenario_ranking ++ scenario_ranking) =
    map combination scenario_ranking.
Proof. reflexivity. Qed.

(** Two rows of season 22020 with the same W_PCT stay in the order of the
    loaded table; a null W_PCT comes last in its season. *)
Example ranking_table_example :
  map RankingTable.TEAM_ID
    (ranking_table
       [ {| Ranking.TEAM_ID := Some 1; Ranking.SEASON_ID := Some 22020;
            Ranking.CONFERENCE := Some "East"; Ranking.W := 1; Ranking.L := 1;
            Ranking.W_PCT := as_float (decimal_to_numeric "0.5") |};
         {| Ranking.TEAM_ID := Some 2; Ranking.SEASON_ID := Some 22021;
            Ranking.CONFERENCE := Some "East"; Ranking.W := 2; Ranking.L := 3;
            Ranking.W_PCT := as_float (decimal_to_numeric "0.4") |};
         {| Ranking.TEAM_ID := Some 3; Ranking.SEASON_ID := Some 22020;
            Ranking.CONFERENCE := Some "West"; Ranking.W := 0; Ranking.L := 0;
            Ranking.W_PCT := nan |};
         {| Ranking.TEAM_ID := Some 4; Ranking.SEASON_ID := Some 22020;
            Ranking.CONFERENCE := Some "West"; Ranking.W := 2; Ranking.L := 2;
            Ranking.W_PCT := as_float (decimal_to_numeric "0.5") |};
         {| Ranking.TEAM_ID := Some 5; Ranking.SEASON_ID := Some 22020;
            Ranking.CONFERENCE := Some "West"; Ranking.W := 7; Ranking.L := 3;
            Ranking.W_PCT := as_float (decimal_to_numeric "0.7") |} ]) =
    [Some 2; Some 5; Some 1; Some 4; Some 3].
Proof. reflexivity. Qed.

Lemma StronglySorted_map {A B : Type} (f : A -> B) (P : A -> A -> Prop)
      (Q : B -> B -> Prop) (l : list A) :
  (forall a b, P a b -> Q (f a) (f b)) ->
  StronglySorted P l -> StronglySorted Q (map f l).
Proof.
  intros H. induction 1 as [|a l _ IH Ha]; simpl; constructor; [exact IH|].
  apply Forall_map. eapply Forall_impl; [|exact Ha]. intros b. apply H.
Qed.

(** The groups come out in the order of their keys: the season trend is
    in ascending order of SEASON. *)
Lemma season_trend_ascending (games : list (Games.row num)) :
  StronglySorted Z.le (map SeasonTrend.SEASON (season_trend games)).
Proof.
  rewrite season_trend_keys. unfold groupby.
  apply (StronglySorted_map fst
           (fun a b : Z * list (Games.row num) =>
              Z.leb (fst a) (fst b) = true)).
  - intros a b. apply Z.leb_le.
  - apply stable_sort_sorted.
    + intros x y H. apply Z.leb_le. apply Z.leb_gt in H. lia.
    + intros x y z H1 H2. apply Z.leb_le. apply Z.leb_le in H1, H2. lia.
Qed.

(* ================================================================== *)
(** ** The properties of the specification *)
(* ================================================================== *)

(** Rows with a null score, or with a MIN that cleans to null, change no
    displayed table: the script gives the same result without them.  For
    a games row this supposes that the score columns keep their dtype
    without the row; a column that loses its only non-integer cell
    becomes an int64 column, in which line 59 adds in int64. *)
Lemma null_rows_leave_no_trace (f : string -> num) (season : Z)
      (t : tables cell cell cell) :
  (forall g1 g g2, games t = g1 ++ g :: g2 ->
     isna (to_numeric f (Games.PTS_home g)) = true \/
     isna (to_numeric f (Games.PTS_away g)) = true ->
     integral f (map Games.PTS_home (g1 ++ g :: g2)) =
       integral f (map Games.PTS_home (g1 ++ g2)) ->
     integral f (map Games.PTS_away (g1 ++ g :: g2)) =
       integral f (map Games.PTS_away (g1 ++ g2)) ->
     dashboard f season t = dashboard f season (with_games t (g1 ++ g2))) /\
  (forall d1 d d2 m, game_details t = d1 ++ d :: d2 ->
     convert_minutes f (Details.MIN d) = Ok m -> isna m = true ->
     dashboard f season t =
       dashboard f season (with_game_details t (d1 ++ d2))).
Proof.
  split.
  - intros g1 g g2 E H Hh Ha. unfold dashboard, cleaner, with_games. simpl.
    rewrite E, (clean_games_drop f g1 g2 g H Hh Ha). reflexivity.
  - intros d1 d d2 m E Hm Hna. unfold dashboard, cleaner, with_game_details.
    simpl. rewrite E, (clean_game_details_drop f d1 d2 d m Hm Hna).
    reflexivity.
Qed.



(** C2 (the code departs from the claim). The coercion of the score and
    statistics columns yields a number or null for every cell, and so does
    [convert_minutes] on a number and on a string without colon; but on a
    string with a colon whose pieces do not read as two numbers
    [convert_minutes] raises, and the cleaning section with it. *)
Theorem cleaning_raises_on_malformed_duration (f : string -> num) :
  (forall s, contains ":" s = false ->
     convert_minutes f (CStr s) = Ok (to_numeric f (CStr s))) /\
  (forall x, convert_minutes f (CNum x) = Ok x) /\
  convert_minutes f (CStr "ab:cd") = Raise ValueError /\
  convert_minutes f (CStr "1:2:3") = Raise ValueError /\
  (forall t d, In d (game_details t) -> Details.MIN d = CStr "ab:cd" ->
     cleaner f t = Raise ValueError) /\
  cleaner f (scenario_tables malformed_details) = Raise ValueError.
Proof.
  split; [|split; [|split; [|split; [|split]]]]; try reflexivity.
  - intros s Hs. apply convert_minutes_plain. exact Hs.
  - intros t d Hin Hd. unfold cleaner.
    rewrite (clean_game_details_raises f _ d ValueError Hin); [reflexivity|].
    rewrite Hd. reflexivity.
Qed.

(** C3 (the code departs from the claim). A game-details row whose MIN
    has a colon and no numbers around it is not dropped: the script stops
    with an exception and displays nothing, whereas without that row it
    displays its tables. *)
Theorem malformed_duration_row_not_dropped (f : string -> num) (season : Z) :
  (forall t d e, In d (game_details t) ->
     convert_minutes f (Details.MIN d) = Raise e ->
     dashboard f season t = Raise ValueError) /\
  dashboard f season (scenario_tables malformed_details) = Raise ValueError /\
  exists v,
    dashboard f season
      (scenario_tables [detail 201 "32:15" (CStr "21")]) = Ok v.
Proof.
  split; [|split].
  - intros t d e Hin He. unfold dashboard, cleaner.
    rewrite (clean_game_details_raises f _ d e Hin He). reflexivity.
  - reflexivity.
  - eexists. reflexivity.
Qed.

(** C4. The season trend has one row per SEASON value of the cleaned
    games table, the rows of the loaded table whose two scores coerce to
    numbers; the value of a row is the mean of [PTS_home + PTS_away] over
    the cleaned rows of its season, the compensated sum of these totals
    over their number when none is null.  A total is added in int64 when
    both score columns are int64, exactly as long as it stays in int64,
    and in float64 otherwise; the total of two finite scores is not null.
    In the scenario of the specification only the first row of 2020
    counts and the mean is 215.0; the totals 100.1, 101.2 and 102.3 have
    the mean 101.2 and the totals 0.1, 0.2 and 0.3 the mean
    0.19999999999999998; the int64 total of 9223372036854775807 and 1
    wraps around to -2^63. *)
Theorem season_trend_per_season (f : string -> num)
        (raw : list (Games.row cell)) :
  (forall g, In g (clean_games f raw) <->
     exists r, In r raw /\ g = coerce_game f raw r /\
               isna (to_numeric f (Games.PTS_home r)) = false /\
               isna (to_numeric f (Games.PTS_away r)) = false) /\
  (forall g, In g (clean_games f raw) ->
     is_int (Games.PTS_home g) = integral f (map Games.PTS_home raw) /\
     is_int (Games.PTS_away g) = integral f (map Games.PTS_away raw)) /\
  NoDup (map SeasonTrend.SEASON (season_trend (clean_games f raw))) /\
  (forall s, In s (map SeasonTrend.SEASON (season_trend (clean_games f raw)))
     <-> exists g, In g (clean_games f raw) /\ Games.SEASON g = Some s) /\
  List.length (season_trend (clean_games f raw)) =
    List.length (distinct_seasons (clean_games f raw)) /\
  (forall t, In t (season_trend (clean_games f raw)) ->
     SeasonTrend.TOTAL_POINTS t =
       mean (map total_points
               (filter (in_season (SeasonTrend.SEASON t))
                       (clean_games f raw)))) /\
  (forall t, In t (season_trend (clean_games f raw)) ->
     (forall g, In g (clean_games f raw) ->
                Games.SEASON g = Some (SeasonTrend.SEASON t) ->
                isna (total_points g) = false) ->
     SeasonTrend.TOTAL_POINTS t =
       div (fsum (map total_points
                    (filter (in_season (SeasonTrend.SEASON t))
                            (clean_games f raw))))
           (of_nat (List.length
                      (filter (in_season (SeasonTrend.SEASON t))
                              (clean_games f raw))))) /\
  (forall (g : Games.row num) x y,
     Games.PTS_home g = Int x -> Games.PTS_away g = Int y ->
     TOTAL_POINTS g = Int (wrap64 (x + y)) /\
     (- 2 ^ 63 <= x + y < 2 ^ 63 -> total_points g = of_Z (x + y))) /\
  (forall g : Games.row num,
     is_int (Games.PTS_home g) && is_int (Games.PTS_away g) = false ->
     TOTAL_POINTS g = Flt (add (pts_home g) (pts_away g))) /\
  (forall g : Games.row num,
     is_finite (pts_home g) = true ->
     is_finite (pts_away g) = true ->
     isna (total_points g) = false) /\
  (season_trend (clean_games decimal_to_numeric scenario_games) =
     [ {| SeasonTrend.SEASON := 2020;
          SeasonTrend.TOTAL_POINTS := of_Z 215 |} ] /\
   py_float "215.0" = Some (of_Z 215)) /\
  (season_trend (clean_games decimal_to_numeric decimal_games) =
     [ {| SeasonTrend.SEASON := 2021;
          SeasonTrend.TOTAL_POINTS := float_101_2 |} ] /\
   py_float "101.2" = Some float_101_2) /\
  (season_trend (clean_games decimal_to_numeric tenths_games) =
     [ {| SeasonTrend.SEASON := 2023;
          SeasonTrend.TOTAL_POINTS := float_0_2_below |} ] /\
   py_float "0.19999999999999998" = Some float_0_2_below) /\
  season_trend (clean_games decimal_to_numeric int64_games) =
    [ {| SeasonTrend.SEASON := 2022;
         SeasonTrend.TOTAL_POINTS := of_Z (- 2 ^ 63) |} ].
Proof.
  assert (Hrow : forall t, In t (season_trend (clean_games f raw)) ->
            In (SeasonTrend.SEASON t) (seasons (clean_games f raw)) /\
            SeasonTrend.TOTAL_POINTS t =
              mean (map total_points
                      (filter (in_season (SeasonTrend.SEASON t))
                              (clean_games f raw)))).
  { intros t Ht. apply season_trend_In in Ht.
    destruct Ht as (s & Hs & ->). simpl. auto. }
  split; [apply clean_games_In|].
  split; [apply clean_games_dtype|].
  split; [apply season_trend_NoDup|].
  split.
  { intros s. rewrite <- seasons_In, in_map_iff. split.
    - intros (t & <- & Ht). apply Hrow, Ht.
    - intros Hs. eexists. split; [|apply season_trend_In; eauto].
      reflexivity. }
  split; [apply season_trend_length|].
  split; [intros t Ht; apply Hrow, Ht|].
  split.
  { intros t Ht Hnn. destruct (Hrow t Ht) as [Hs ->].
    rewrite mean_no_null, length_map; [reflexivity| |].
    - apply seasons_In in Hs. destruct Hs as (g & Hg & Hs).
      intros E. apply map_eq_nil in E.
      assert (Hin : In g (filter (in_season (SeasonTrend.SEASON t))
                                 (clean_games f raw))).
      { apply filter_In. split; [exact Hg|].
        apply (has_key_iff Z.eqb Games.SEASON Z_eqb_eq). exact Hs. }
      rewrite E in Hin. destruct Hin.
    - intros x Hx. apply in_map_iff in Hx. destruct Hx as (g & <- & Hg).
      apply filter_In in Hg. destruct Hg as [Hg Hk].
      apply Hnn; [exact Hg|].
      apply (has_key_iff Z.eqb Games.SEASON Z_eqb_eq). exact Hk. }
  split; [apply TOTAL_POINTS_int64|].
  split; [apply TOTAL_POINTS_float64|].
  split; [apply total_points_notna|].
  repeat split.
Qed.

Lemma season_trend_per_season_witness :
  float_0_2_below =
    mean (map total_points
            (filter (in_season 2023)
                    (clean_games decimal_to_numeric tenths_games))).
Proof.
  destruct (season_trend_per_season decimal_to_numeric tenths_games)
    as (_ & _ & _ & _ & _ & H & _).
  apply (H {| SeasonTrend.SEASON := 2023;
              SeasonTrend.TOTAL_POINTS := float_0_2_below |}).
  left. reflexivity.
Defined.

(** C5. A row of the player stats view pairs the means of a player over
    the cleaned game-details rows with a row of the players table that
    has the same PLAYER_ID, and every such pair is a row: a player
    without a cleaned game-details row is not in the view, and a
    PLAYER_ID of the game details without a row in the players table is
    not in it either.  For the three rows of one player with the
    durations 25:32, 22:54 and 36:22 and the points 21, 8 and null, the
    view has the one row of that player, with 14.5 points and
    28.266666666666666 minutes; the second player of the players table
    has no row. *)
Theorem player_stats_inner_join
        (game_details : list (Details.row float float))
        (players : list Players.row) :
  (forall m p, In (m, p) (player_stats game_details players) <->
     (exists d, In d game_details /\
                Details.PLAYER_ID d = Some (PlayerMeans.PLAYER_ID m)) /\
     m = means_of (PlayerMeans.PLAYER_ID m) game_details /\
     In p players /\
     Players.PLAYER_ID p = Some (PlayerMeans.PLAYER_ID m)) /\
  (forall k, (forall d, In d game_details -> Details.PLAYER_ID d <> Some k) ->
     forall m p, In (m, p) (player_stats game_details players) ->
                 PlayerMeans.PLAYER_ID m <> k /\
                 Players.PLAYER_ID p <> Some k) /\
  (forall k, (forall p, In p players -> Players.PLAYER_ID p <> Some k) ->
     forall m p, In (m, p) (player_stats game_details players) ->
                 PlayerMeans.PLAYER_ID m <> k /\
                 Players.PLAYER_ID p <> Some k) /\
  (clean_game_details decimal_to_numeric minutes_details = Ok minutes_rows /\
   player_stats minutes_rows scenario_players =
     [ (minutes_means, first_player) ] /\
   py_float "14.5" = Some float_14_5 /\
   py_float "28.266666666666666" = Some float_28_27_below).
Proof.
  split; [intros m p; apply player_stats_In|]. split; [|split].
  - intros k Hk m p H. apply player_stats_In in H.
    destruct H as ((d & Hd & Hid) & _ & _ & Hp).
    assert (PlayerMeans.PLAYER_ID m <> k)
      by (intros <-; exact (Hk d Hd Hid)).
    split; [assumption | congruence].
  - intros k Hk m p H. apply player_stats_In in H.
    destruct H as (_ & _ & Hp & Hid).
    assert (PlayerMeans.PLAYER_ID m <> k)
      by (intros <-; exact (Hk p Hp Hid)).
    split; [assumption | congruence].
  - repeat split.
Qed.

Lemma player_stats_inner_join_witness :
  In (minutes_means, first_player)
     (player_stats minutes_rows scenario_players).
Proof.
  apply (proj1 (player_stats_inner_join minutes_rows scenario_players)).
  split; [|split; [reflexivity | split; [left; reflexivity | reflexivity]]].
  eexists. split; [left; reflexivity | reflexivity].
Defined.

(** C6. The long home-versus-away table has twice as many rows as the
    cleaned games table has SEASON values: for every season a row with
    Location "Home" and the mean of PTS_home over the games of the
    season, and a row with Location "Away" and the mean of PTS_away; the
    scores of the cleaned table are no nulls, so that each mean is the
    compensated sum over all games of the season divided by their
    number.  For three games of 2021 with the home scores 0.1, 0.2, 0.3
    and the away scores 100, 101, 102 the table is the Home row with
    0.19999999999999998 and the Away row with 101.0. *)
Theorem home_away_long_shape (f : string -> num)
        (raw : list (Games.row cell)) :
  List.length (home_away_long (clean_games f raw)) =
    (2 * List.length (distinct_seasons (clean_games f raw)))%nat /\
  (forall r, In r (home_away_long (clean_games f raw)) <->
     exists s, In s (seasons (clean_games f raw)) /\
       (r = {| HomeAwayLong.SEASON := s;
               HomeAwayLong.Location := Some "Home";
               HomeAwayLong.Average_Points :=
                 mean (map pts_home
                         (filter (in_season s) (clean_games f raw))) |} \/
        r = {| HomeAwayLong.SEASON := s;
               HomeAwayLong.Location := Some "Away";
               HomeAwayLong.Average_Points :=
                 mean (map pts_away
                         (filter (in_season s) (clean_games f raw))) |})) /\
  (forall r, In r (home_away_long (clean_games f raw)) ->
     HomeAwayLong.Location r = Some "Home" \/
     HomeAwayLong.Location r = Some "Away") /\
  (forall s, In s (seasons (clean_games f raw)) ->
     mean (map pts_home (filter (in_season s) (clean_games f raw))) =
       div (fsum (map pts_home
                    (filter (in_season s) (clean_games f raw))))
           (of_nat (List.length (filter (in_season s) (clean_games f raw))))
     /\
     mean (map pts_away (filter (in_season s) (clean_games f raw))) =
       div (fsum (map pts_away
                    (filter (in_season s) (clean_games f raw))))
           (of_nat (List.length (filter (in_season s) (clean_games f raw))))) /\
  (home_away_long (clean_games decimal_to_numeric decimal_games) =
     [ {| HomeAwayLong.SEASON := 2021;
          HomeAwayLong.Location := Some "Home";
          HomeAwayLong.Average_Points := float_0_2_below |};
       {| HomeAwayLong.SEASON := 2021;
          HomeAwayLong.Location := Some "Away";
          HomeAwayLong.Average_Points := of_Z 101 |} ] /\
   py_float "0.19999999999999998" = Some float_0_2_below /\
   py_float "101.0" = Some (of_Z 101)).
Proof.
  assert (Hin : forall r, In r (home_away_long (clean_games f raw)) <->
     exists s, In s (seasons (clean_games f raw)) /\
       (r = {| HomeAwayLong.SEASON := s;
               HomeAwayLong.Location := Some "Home";
               HomeAwayLong.Average_Points :=
                 mean (map pts_home
                         (filter (in_season s) (clean_games f raw))) |} \/
        r = {| HomeAwayLong.SEASON := s;
               HomeAwayLong.Location := Some "Away";
               HomeAwayLong.Average_Points :=
                 mean (map pts_away
                         (filter (in_season s) (clean_games f raw))) |})).
  { intros r. rewrite home_away_long_rows, in_app_iff, !in_map_iff. split.
    - intros [(w & <- & Hw) | (w & <- & Hw)];
        apply home_away_trend_In in Hw; destruct Hw as (s & Hs & ->);
        exists s; (split; [exact Hs|]); [left | right]; reflexivity.
    - intros (s & Hs & [-> | ->]); [left | right];
        (eexists; split; [|apply home_away_trend_In; eauto]); reflexivity. }
  split; [|split; [exact Hin|split; [|split]]].
  - rewrite home_away_long_rows, length_app, !length_map.
    rewrite home_away_trend_length. lia.
  - intros r Hr. apply Hin in Hr. destruct Hr as (s & _ & [-> | ->]);
      [left | right]; reflexivity.
  - intros s Hs. apply seasons_In in Hs. destruct Hs as (g & Hg & Hs).
    assert (Hne : filter (in_season s) (clean_games f raw) <> []).
    { intros E.
      assert (Hin' : In g (filter (in_season s) (clean_games f raw))).
      { apply filter_In. split; [exact Hg|].
        apply (has_key_iff Z.eqb Games.SEASON Z_eqb_eq). exact Hs. }
      rewrite E in Hin'. destruct Hin'. }
    split; (rewrite mean_no_null, length_map; [reflexivity| |]);
      try (intros E; apply map_eq_nil in E; exact (Hne E));
      intros x Hx; apply in_map_iff in Hx; destruct Hx as (r & <- & Hr);
      apply filter_In in Hr; destruct Hr as [Hr _];
      apply clean_games_In in Hr; destruct Hr as (r0 & _ & -> & Hh & Ha);
      unfold pts_home, pts_away, coerce_game; cbn [Games.PTS_home Games.PTS_away];
      rewrite as_float_as_column; assumption.
  - repeat split.
Qed.

Lemma home_away_long_shape_witness :
  In {| HomeAwayLong.SEASON := 2021;
        HomeAwayLong.Location := Some "Home";
        HomeAwayLong.Average_Points := float_0_2_below |}
     (home_away_long (clean_games decimal_to_numeric decimal_games)) /\
  In {| HomeAwayLong.SEASON := 2021;
        HomeAwayLong.Location := Some "Away";
        HomeAwayLong.Average_Points := of_Z 101 |}
     (home_away_long (clean_games decimal_to_numeric decimal_games)).
Proof.
  destruct (home_away_long_shape decimal_to_numeric decimal_games)
    as (_ & H & _).
  split; apply H; exists 2021; (split; [left; reflexivity|]);
    [left | right]; reflexivity.
Defined.

(** C7. A game whose home team is in no row of the ranking table changes
    nothing in the conference trend.  The trend has one row for every
    SEASON and CONFERENCE that a game and a ranking row of its home team
    give together, both non-null, and the value of the row is the mean of
    PTS_home over the joined rows of that season and conference.  For
    three games of 2021 at home for a team of the East with the scores
    0.1, 0.2 and 0.3 the trend is the one row of 2021 and East with
    0.19999999999999998, with and without a fourth game of a team that
    the ranking table does not have. *)
Theorem conf_trend_resolved_only (games : list (Games.row num))
        (ranking : list Ranking.row) :
  (forall g1 g g2, games = g1 ++ g :: g2 ->
     (forall r, In r ranking -> Games.HOME_TEAM_ID g <> Ranking.TEAM_ID r) ->
     conf_trend games ranking = conf_trend (g1 ++ g2) ranking) /\
  (forall t, In t (conf_trend games ranking) <->
     exists s c,
       (exists g r, In g games /\ In r ranking /\
                    Games.HOME_TEAM_ID g = Ranking.TEAM_ID r /\
                    Games.SEASON g = Some s /\
                    Ranking.CONFERENCE r = Some c) /\
       t = {| ConfTrend.SEASON := s;
              ConfTrend.CONFERENCE := c;
              ConfTrend.PTS_home :=
                mean (map (fun j => pts_home (fst j))
                          (filter (in_season_conference s c)
                                  (conf_games games ranking))) |}) /\
  (forall s c j, in_season_conference s c j = true <->
     Games.SEASON (fst j) = Some s /\ joined_CONFERENCE j = Some c) /\
  NoDup (map (fun t => (ConfTrend.SEASON t, ConfTrend.CONFERENCE t))
             (conf_trend games ranking)) /\
  (conf_trend (clean_games decimal_to_numeric decimal_games)
              scenario_ranking =
     [ {| ConfTrend.SEASON := 2021; ConfTrend.CONFERENCE := "East";
          ConfTrend.PTS_home := float_0_2_below |} ] /\
   conf_trend (unranked_game :: clean_games decimal_to_numeric decimal_games)
              scenario_ranking =
     [ {| ConfTrend.SEASON := 2021; ConfTrend.CONFERENCE := "East";
          ConfTrend.PTS_home := float_0_2_below |} ]).
Proof.
  split; [|split; [|split; [|split]]].
  - intros g1 g g2 -> H. apply conf_trend_unmatched. exact H.
  - intros t. rewrite conf_trend_In. split.
    + intros (s & c & ([g o] & Hj & Hs & Hc) & ->). exists s, c.
      split; [|reflexivity]. unfold joined_CONFERENCE in Hc. simpl in *.
      destruct o as [tc|]; [|discriminate].
      apply conf_games_matched_In in Hj.
      destruct Hj as (Hg & (r & Hr & ->) & Hid).
      exists g, r. auto.
    + intros (s & c & (g & r & Hg & Hr & Hid & Hs & Hc) & ->). exists s, c.
      split; [|reflexivity]. exists (g, Some (combination r)).
      split; [|split; [exact Hs | exact Hc]].
      apply conf_games_matched_In. split; [exact Hg|].
      split; [eauto | exact Hid].
  - intros s c j. unfold in_season_conference.
    rewrite (has_key_iff pair_eqb season_conference pair_eqb_eq).
    unfold season_conference.
    destruct (Games.SEASON (fst j)), (joined_CONFERENCE j);
      split; try discriminate; try (intros [? ?]; discriminate).
    + intros E. injection E as -> ->. auto.
    + intros [E1 E2]. injection E1 as ->. injection E2 as ->. reflexivity.
  - apply conf_trend_NoDup.
  - split; reflexivity.
Qed.

Lemma conf_trend_resolved_only_witness :
  conf_trend (unranked_game :: clean_games decimal_to_numeric decimal_games)
             scenario_ranking =
    [ {| ConfTrend.SEASON := 2021; ConfTrend.CONFERENCE := "East";
         ConfTrend.PTS_home := float_0_2_below |} ].
Proof.
  refine (eq_trans
            (proj1 (conf_trend_resolved_only _ _) [] unranked_game _ eq_refl _)
            eq_refl).
  intros r [<- | [<- | []]]; discriminate.
Defined.

(** C8. The ranking table holds the rows of the loaded ranking table,
    restricted to five columns, in leaderboard order: a later SEASON_ID
    first and, within a SEASON_ID, a higher W_PCT first; rows with the
    same SEASON_ID and the same W_PCT are in the order of the loaded
    table. *)
Theorem ranking_table_sorted (ranking : list Ranking.row) :
  Permutation (ranking_table ranking) (map select_ranking ranking) /\
  StronglySorted leaderboard_order (ranking_table ranking) /\
  (forall k, filter (same_keys k) (ranking_table ranking) =
             filter (same_keys k) (map select_ranking ranking)) /\
  (forall a b, RankingTable.SEASON_ID a = RankingTable.SEASON_ID b ->
               RankingTable.W_PCT a = RankingTable.W_PCT b ->
               same_keys a b = true).
Proof.
  split; [apply stable_sort_perm|]. split; [|split].
  - pose proof (stable_sort_sorted ranking_leb ranking_leb_total
                  ranking_leb_trans (map select_ranking ranking)) as H.
    fold (ranking_table ranking) in H.
    induction H as [|a l _ IH Ha]; constructor; [exact IH|].
    eapply Forall_impl; [|exact Ha].
    intros b. apply ranking_leb_leaderboard.
  - intros k. apply stable_sort_filter. apply same_keys_leb.
  - apply same_keys_equal.
Qed.

Lemma ranking_table_sorted_witness :
  Permutation (ranking_table scenario_ranking)
              (map select_ranking scenario_ranking).
Proof. exact (proj1 (ranking_table_sorted scenario_ranking)). Defined.

(** C9. When the cleaning section completes, the players, teams and
    ranking tables are the loaded ones; the games and game-details tables
    are the cleaned ones; and the displayed tables are computed from
    these. *)
Theorem cleaner_frame (f : string -> num) (t : tables cell cell cell)
        (t' : tables num float float) :
  cleaner f t = Ok t' ->
  players t' = players t /\
  teams t' = teams t /\
  ranking t' = ranking t /\
  games t' = clean_games f (games t) /\
  clean_game_details f (game_details t) = Ok (game_details t') /\
  forall season, dashboard f season t = Ok (aggregate season t').
Proof.
  intros H. unfold dashboard. rewrite H. unfold cleaner in H.
  destruct (clean_game_details f (game_details t)) as [ds|]; [|discriminate].
  simpl in H. injection H as <-. simpl. repeat split; reflexivity.
Qed.

Lemma cleaner_frame_witness :
  exists t',
    cleaner decimal_to_numeric (scenario_tables good_details) = Ok t' /\
    players t' = scenario_players /\ ranking t' = scenario_ranking.
Proof.
  eexists. split; [reflexivity|].
  destruct (cleaner_frame decimal_to_numeric (scenario_tables good_details)
              _ eq_refl) as (Hp & _ & Hr & _).
  split; [exact Hp | exact Hr].
Defined.

(** C10. When the cleaning section completes, the cleaned game-details
    table holds the rows whose MIN converted to a number and no other,
    whatever their PTS, AST and REB cells coerced to.  A mean of the
    player stats view is taken over the non-null cells of its column for
    the player, and is null when there is none; a player with a kept row
    and a row in the players table is in the view.  Of three rows of one
    player with the points 21, 8 and an unreadable cell all three are
    kept, and the player has the mean 14.5 of the two readable cells. *)
Theorem null_statistics_keep_the_row (f : string -> num)
        (raw : list (Details.row cell cell))
        (game_details : list (Details.row float float)) :
  clean_game_details f raw = Ok game_details ->
  (forall r, In r game_details <->
     exists d m, In d raw /\ convert_minutes f (Details.MIN d) = Ok m /\
                 isna m = false /\ r = set_MIN (coerce_detail f d) m) /\
  (forall players m p, In (m, p) (player_stats game_details players) ->
     m = means_of (PlayerMeans.PLAYER_ID m) game_details) /\
  (forall k,
     PlayerMeans.PTS (means_of k game_details) =
       mean (filter notna
               (map Details.PTS (filter (of_player k) game_details))) /\
     PlayerMeans.AST (means_of k game_details) =
       mean (filter notna
               (map Details.AST (filter (of_player k) game_details))) /\
     PlayerMeans.REB (means_of k game_details) =
       mean (filter notna
               (map Details.REB (filter (of_player k) game_details))) /\
     PlayerMeans.MIN (means_of k game_details) =
       mean (filter notna
               (map Details.MIN (filter (of_player k) game_details)))) /\
  (forall xs, (forall x, In x xs -> isna x = true) -> mean xs = nan) /\
  (forall xs, filter notna xs <> [] ->
     mean xs = div (fsum (filter notna xs))
                   (of_nat (List.length (filter notna xs)))) /\
  (forall players d m k p,
     In d raw -> convert_minutes f (Details.MIN d) = Ok m ->
     isna m = false -> Details.PLAYER_ID d = Some k ->
     In p players -> Players.PLAYER_ID p = Some k ->
     In (means_of k game_details, p) (player_stats game_details players)) /\
  (clean_game_details decimal_to_numeric minutes_details = Ok minutes_rows /\
   means_of 201 minutes_rows = minutes_means /\
   mean [of_Z 21; of_Z 8; nan] = float_14_5 /\
   mean [nan; nan] = nan).
Proof.
  intros Hclean.
  split; [|split; [|split; [|split; [|split; [|split]]]]].
  - intros r. split.
    + intros Hr.
      destruct (clean_game_details_In f raw game_details r Hclean Hr)
        as [Hna (d & Hd & Hc)].
      unfold clean_detail in Hc.
      destruct (convert_minutes f (Details.MIN d)) as [m|] eqn:Hm;
        [|discriminate].
      injection Hc as <-. exists d, m. auto.
    + intros (d & m & Hd & Hm & Hna & ->).
      eapply clean_game_details_keep; eassumption.
  - intros players m p H. apply player_stats_In in H. tauto.
  - intros k. unfold means_of. cbn [PlayerMeans.PTS PlayerMeans.AST
      PlayerMeans.REB PlayerMeans.MIN].
    repeat split; apply mean_skips_null.
  - apply mean_all_null.
  - intros xs Hne. unfold mean.
    destruct (filter notna xs); [congruence | reflexivity].
  - intros players d m k p Hd Hm Hna Hk Hp Hid.
    apply player_stats_In. cbn [PlayerMeans.PLAYER_ID means_of].
    split; [|auto].
    exists (set_MIN (coerce_detail f d) m). split; [|exact Hk].
    eapply clean_game_details_keep; eassumption.
  - repeat split.
Qed.

Lemma null_statistics_keep_the_row_witness :
  clean_game_details decimal_to_numeric minutes_details = Ok minutes_rows /\
  In (minutes_means, first_player)
     (player_stats minutes_rows scenario_players) /\
  PlayerMeans.PTS (means_of 201 minutes_rows) =
    mean (filter notna [of_Z 21; of_Z 8; nan]).
Proof.
  split; [reflexivity|].
  destruct (null_statistics_keep_the_row decimal_to_numeric minutes_details
              minutes_rows eq_refl) as (_ & _ & Hmean & _ & _ & Hin & _).
  split.
  - apply (Hin scenario_players (detail 201 "36:22" (CStr "n/a"))
               (add (of_Z 36) (div (of_Z 22) (of_Z 60))) 201 first_player).
    + right. right. left. reflexivity.
    + reflexivity.
    + reflexivity.
    + reflexivity.
    + left. reflexivity.
    + reflexivity.
  - apply Hmean.
Defined.

(* ================================================================== *)
(** ** Further properties of the cleaning section *)
(* ================================================================== *)







Lemma split_length (sep : ascii) (s : string) :
  List.length (split sep s) = S (occurrences sep s).
Proof.
  induction s as [|a r IH]; simpl; [reflexivity|].
  destruct (Ascii.eqb a sep); simpl; [rewrite IH; reflexivity|].
  destruct (split sep r); simpl in *; lia.
Qed.

Lemma split_pieces (sep : ascii) (s : string) :
  Forall (fun p => contains sep p = false) (split sep s).
Proof.
  induction s as [|a r IH]; simpl.
  - constructor; [reflexivity | constructor].
  - destruct (Ascii.eqb a sep) eqn:E.
    + constructor; [reflexivity | exact IH].
    + destruct (split sep r) as [|p ps].
      * constructor; [simpl; rewrite E; reflexivity | constructor].
      * inversion IH as [|? ? Hp Hps]; subst.
        constructor; [simpl; rewrite E; exact Hp | exact Hps].
Qed.

Lemma concat_cons (sep x : string) (l : list string) :
  l <> [] ->
  String.concat sep (x :: l) = (x ++ sep ++ String.concat sep l)%string.
Proof. destruct l; [congruence | reflexivity]. Qed.

Lemma split_concat (sep : ascii) (s : string) :
  String.concat (String sep EmptyString) (split sep s) = s.
Proof.
  induction s as [|a r IH]; simpl; [reflexivity|].
  destruct (Ascii.eqb a sep) eqn:E.
  - apply Ascii.eqb_eq in E. subst a.
    rewrite concat_cons by apply PyStrFacts.split_not_nil.
    rewrite IH. reflexivity.
  - destruct (split sep r) as [|p ps] eqn:Es.
    + exfalso. eapply PyStrFacts.split_not_nil; eassumption.
    + rewrite <- IH. destruct ps; reflexivity.
Qed.

(** X4. The pieces that [split] cuts a text into are one more than the
    separators in the text, none holds a separator, and joined again with
    the separator they give the text back. *)
Theorem split_join (sep : ascii) (s : string) :
  List.length (split sep s) = S (occurrences sep s) /\
  Forall (fun p => contains sep p = false) (split sep s) /\
  String.concat (String sep EmptyString) (split sep s) = s.
Proof.
  split; [apply split_length|]. split; [apply split_pieces|].
  apply split_concat.
Qed.

Lemma blank_spaces (b : string) :
  blank b = true ->
  Forall (fun c => is_space c = true) (list_ascii_of_string b).
Proof.
  induction b as [|c r IH]; simpl; intros H; [constructor|].
  apply andb_true_iff in H. destruct H as [Hc Hr]. constructor; auto.
Qed.

Lemma lstrip_spaces (b : list ascii) :
  Forall (fun c => is_space c = true) b -> lstrip b = [].
Proof.
  induction 1 as [|c r Hc _ IH]; simpl; [reflexivity|]. rewrite Hc. exact IH.
Qed.

Lemma lstrip_spaces_app (b l : list ascii) :
  Forall (fun c => is_space c = true) b -> lstrip (b ++ l) = lstrip l.
Proof.
  induction 1 as [|c r Hc _ IH]; simpl; [reflexivity|]. rewrite Hc. exact IH.
Qed.

Lemma lstrip_app_spaces (l b : list ascii) :
  Forall (fun c => is_space c = true) b ->
  lstrip (l ++ b) = match lstrip l with
                    | [] => []
                    | x => x ++ b
                    end.
Proof.
  intros Hb. induction l as [|c r IH].
  - simpl. apply lstrip_spaces. exact Hb.
  - simpl. destruct (is_space c); [exact IH | reflexivity].
Qed.

Lemma strip_spaces (b1 l b2 : list ascii) :
  Forall (fun c => is_space c = true) b1 ->
  Forall (fun c => is_space c = true) b2 ->
  strip (b1 ++ l ++ b2) = strip l.
Proof.
  intros H1 H2. unfold strip.
  rewrite (lstrip_spaces_app b1 _ H1), (lstrip_app_spaces l b2 H2).
  destruct (lstrip l) as [|x r]; [reflexivity|].
  rewrite rev_app_distr, lstrip_spaces_app; [reflexivity|].
  apply Forall_forall. intros c Hc. apply in_rev in Hc.
  revert c Hc. apply Forall_forall. exact H2.
Qed.

Lemma list_ascii_of_string_app (a b : string) :
  list_ascii_of_string (a ++ b) =
    list_ascii_of_string a ++ list_ascii_of_string b.
Proof. induction a as [|c r IH]; simpl; [|rewrite IH]; reflexivity. Qed.

(** [float] does not look at the blanks around a text. *)
Lemma py_float_blanks (b1 s b2 : string) :
  blank b1 = true -> blank b2 = true ->
  py_float (b1 ++ s ++ b2) = py_float s.
Proof.
  intros H1 H2. unfold py_float.
  rewrite !list_ascii_of_string_app.
  rewrite (strip_spaces _ _ _ (blank_spaces b1 H1) (blank_spaces b2 H2)).
  reflexivity.
Qed.

Lemma contains_app (c : ascii) (a b : string) :
  contains c (a ++ b) = contains c a || contains c b.
Proof.
  induction a as [|x r IH]; simpl; [reflexivity|].
  rewrite IH, orb_assoc. reflexivity.
Qed.

Lemma blank_no_colon (b : string) : blank b = true -> contains ":" b = false.
Proof.
  induction b as [|c r IH]; simpl; intros H; [reflexivity|].
  apply andb_true_iff in H. destruct H as [Hc Hr]. rewrite (IH Hr).
  destruct (Ascii.eqb c ":") eqn:E; [|reflexivity].
  apply Ascii.eqb_eq in E. subst c. discriminate.
Qed.

Lemma blank_char (c : ascii) :
  blank (String c EmptyString) = true <->
  In c (list_ascii_of_string six_blanks).
Proof.
  destruct c as [[] [] [] [] [] [] [] []]; cbn; split;
    try discriminate; try reflexivity; intuition discriminate.
Qed.

(** X3. Blanks around the minutes and around the seconds of a MIN cell
    change nothing: [convert_minutes] gives on the padded text what it
    gives on the text without the blanks, a float or an exception.  The
    blanks are the tab, the line feed, the vertical tab, the form feed,
    the carriage return and the space, and no other character. *)
Theorem convert_minutes_ignores_blanks (f : string -> num)
        (b1 b2 b3 b4 m sec : string) :
  blank b1 = true -> blank b2 = true -> blank b3 = true -> blank b4 = true ->
  contains ":" m = false ->
  convert_minutes f
    (CStr ((b1 ++ m ++ b2) ++ String ":" (b3 ++ sec ++ b4))%string) =
  convert_minutes f (CStr (m ++ String ":" sec)%string) /\
  (forall c, blank (String c EmptyString) = true <->
             In c (list_ascii_of_string six_blanks)).
Proof.
  intros H1 H2 H3 H4 Hm. split; [|apply blank_char].
  rewrite (convert_minutes_split f _ (b1 ++ m ++ b2) (b3 ++ sec ++ b4)).
  - rewrite (convert_minutes_split f _ m sec).
    + rewrite !py_float_blanks by assumption. reflexivity.
    + apply PyStrFacts.split_first_append. exact Hm.
  - apply PyStrFacts.split_first_append.
    rewrite !contains_app, Hm, !blank_no_colon by assumption. reflexivity.
Qed.

Lemma convert_minutes_ignores_blanks_witness :
  convert_minutes decimal_to_numeric
    (CStr ((six_blanks ++ "12" ++ " ") ++ String ":" (" " ++ "30" ++ " "))) =
  convert_minutes decimal_to_numeric (CStr "12:30") /\
  convert_minutes decimal_to_numeric (CStr "12:30") = Ok float_12_5.
Proof.
  split; [|reflexivity].
  apply (convert_minutes_ignores_blanks decimal_to_numeric
           six_blanks " " " " " " "12" "30"); reflexivity.
Defined.

Lemma to_num_cell_of_num (f : string -> num) (n : num) :
  to_num f (cell_of_num n) = n.
Proof. destruct n; reflexivity. Qed.

Lemma as_column_float (f : string -> num) (column : list cell) (x : float) :
  as_column f column (Flt x) = Flt x.
Proof. unfold as_column. destruct (integral f column); reflexivity. Qed.

(** A number of a column whose cells all have its dtype is stored as it
    is. *)
Lemma as_column_same (f : string -> num) (ns : list num) (b : bool)
      (n : num) :
  (forall n', In n' ns -> is_int n' = b) -> is_int n = b ->
  as_column f (map cell_of_num ns) n = n.
Proof.
  intros H Hn. destruct n as [z|x]; [|apply as_column_float].
  simpl in Hn. subst b. unfold as_column.
  replace (integral f (map cell_of_num ns)) with true; [reflexivity|].
  symmetry. apply forallb_forall. intros c Hc.
  apply in_map_iff in Hc. destruct Hc as (n' & <- & Hn').
  rewrite to_num_cell_of_num. apply H, Hn'.
Qed.

Lemma coerce_game_as_loaded (f : string -> num) (gs : list (Games.row num))
      (bh ba : bool) (g : Games.row num) :
  (forall g', In g' gs -> is_int (Games.PTS_home g') = bh /\
                          is_int (Games.PTS_away g') = ba) ->
  In g gs ->
  coerce_game f (map game_as_loaded gs) (game_as_loaded g) = g.
Proof.
  intros H Hg. destruct (H g Hg) as [Hh Ha].
  unfold coerce_game. rewrite !map_map.
  cbn [game_as_loaded Games.GAME_ID Games.HOME_TEAM_ID Games.SEASON
       Games.PTS_home Games.PTS_away].
  rewrite <- (map_map Games.PTS_home cell_of_num).
  rewrite <- (map_map Games.PTS_away cell_of_num).
  rewrite !to_num_cell_of_num.
  rewrite (as_column_same f _ bh), (as_column_same f _ ba);
    try assumption.
  - destruct g. reflexivity.
  - intros n Hn. apply in_map_iff in Hn. destruct Hn as (g' & <- & Hg').
    apply H, Hg'.
  - intros n Hn. apply in_map_iff in Hn. destruct Hn as (g' & <- & Hg').
    apply H, Hg'.
Qed.

Lemma clean_detail_as_loaded (f : string -> num)
      (d : Details.row float float) :
  clean_detail f (detail_as_loaded d) = Ok d.
Proof. destruct d. reflexivity. Qed.

Lemma filter_all {A : Type} (p : A -> bool) (l : list A) :
  (forall x, In x l -> p x = true) -> filter p l = l.
Proof.
  induction l as [|x r IH]; simpl; intros H; [reflexivity|].
  rewrite (H x (or_introl eq_refl)), IH; [reflexivity|].
  intros y Hy. apply H. right. exact Hy.
Qed.

Lemma map_ext_In_id {A : Type} (h : A -> A) (l : list A) :
  (forall x, In x l -> h x = x) -> map h l = l.
Proof.
  intros H. rewrite (map_ext_in h (fun x => x)) by exact H. apply map_id.
Qed.

Lemma clean_games_as_loaded (f : string -> num)
      (gs : list (Games.row num)) (bh ba : bool) :
  (forall g, In g gs -> game_complete g = true) ->
  (forall g, In g gs -> is_int (Games.PTS_home g) = bh /\
                        is_int (Games.PTS_away g) = ba) ->
  clean_games f (map game_as_loaded gs) = gs.
Proof.
  intros H Hd. unfold clean_games. rewrite map_map.
  rewrite (map_ext_In_id
             (fun g => coerce_game f (map game_as_loaded gs)
                         (game_as_loaded g))).
  - apply filter_all. exact H.
  - intros g Hg. apply (coerce_game_as_loaded f gs bh ba); assumption.
Qed.

Lemma clean_game_details_as_loaded (f : string -> num)
      (ds : list (Details.row float float)) :
  (forall d, In d ds -> detail_complete d = true) ->
  clean_game_details f (map detail_as_loaded ds) = Ok ds.
Proof.
  intros H. rewrite clean_game_details_rows.
  assert (E : apply (clean_detail f) (map detail_as_loaded ds) = Ok ds).
  { clear H. induction ds as [|d r IH]; [reflexivity|].
    cbn [map apply]. rewrite clean_detail_as_loaded, IH. reflexivity. }
  rewrite E. simpl. rewrite filter_all by exact H. reflexivity.
Qed.

(** X5. Cleaning is idempotent: the cleaned tables, taken as loaded
    tables, pass the cleaning section without an exception and come out
    unchanged. *)
Theorem cleaner_idempotent (f : string -> num) (t : tables cell cell cell)
        (t' : tables num float float) :
  cleaner f t = Ok t' -> cleaner f (as_loaded t') = Ok t'.
Proof.
  intros H. unfold cleaner in H.
  destruct (clean_game_details f (game_details t)) as [ds|] eqn:Hd;
    [|discriminate].
  simpl in H. injection H as <-. unfold cleaner, as_loaded. simpl.
  rewrite clean_game_details_as_loaded.
  - simpl.
    rewrite (clean_games_as_loaded f _
               (integral f (map Games.PTS_home (games t)))
               (integral f (map Games.PTS_away (games t))));
      [reflexivity | | apply clean_games_dtype].
    intros g Hg. unfold clean_games in Hg. apply filter_In in Hg. tauto.
  - intros d Hin.
    destruct (clean_game_details_In f _ _ d Hd Hin) as [Hna _].
    unfold detail_complete, notna. rewrite Hna. reflexivity.
Qed.

Lemma cleaner_idempotent_witness :
  exists t',
    cleaner decimal_to_numeric (scenario_tables good_details) = Ok t' /\
    cleaner decimal_to_numeric (as_loaded t') = Ok t'.
Proof.
  eexists. split; [reflexivity|].
  apply (cleaner_idempotent decimal_to_numeric (scenario_tables good_details)).
  reflexivity.
Defined.

(* ================================================================== *)
(** ** Further properties of the derived tables *)
(* ================================================================== *)

Lemma groupby_sorted {K R : Type} (eqb leb : K -> K -> bool)
      (key : R -> option K) (rows : list R) :
  (forall x y, leb x y = false -> leb y x = true) ->
  (forall x y z, leb x y = true -> leb y z = true -> leb x z = true) ->
  StronglySorted (fun a b => leb a b = true)
                 (map fst (groupby eqb leb key rows)).
Proof.
  intros Htotal Htrans. unfold groupby.
  apply (StronglySorted_map fst
           (fun a b : K * list R => leb (fst a) (fst b) = true)).
  - auto.
  - apply stable_sort_sorted.
    + intros x y. apply Htotal.
    + intros x y z. apply Htrans.
Qed.

Lemma sorted_NoDup_strict {A : Type} (P : A -> A -> Prop) (l : list A) :
  StronglySorted P l -> NoDup l ->
  StronglySorted (fun a b => P a b /\ a <> b) l.
Proof.
  induction 1 as [|a l Hl IH Ha]; intros Hnd; constructor;
    inversion Hnd as [|? ? Hn Hd]; subst.
  - apply IH, Hd.
  - apply Forall_forall. intros b Hb. split.
    + revert b Hb. apply Forall_forall. exact Ha.
    + intros ->. exact (Hn Hb).
Qed.

Lemma StronglySorted_impl {A : Type} (P Q : A -> A -> Prop) (l : list A) :
  (forall a b, P a b -> Q a b) -> StronglySorted P l -> StronglySorted Q l.
Proof.
  intros H. induction 1 as [|a l _ IH Ha]; constructor; [exact IH|].
  eapply Forall_impl; [|exact Ha]. intros b. apply H.
Qed.

(** The keys of a group-and-reduce on an integer column come out in
    strictly increasing order. *)
Lemma groupby_Z_increasing {R : Type} (key : R -> option Z) (rows : list R) :
  StronglySorted Z.lt (map fst (groupby Z.eqb Z.leb key rows)).
Proof.
  apply (StronglySorted_impl (fun a b => Z.leb a b = true /\ a <> b)).
  - intros a b [H1 H2]. apply Z.leb_le in H1. lia.
  - apply sorted_NoDup_strict.
    + apply groupby_sorted.
      * intros x y H. apply Z.leb_le. apply Z.leb_gt in H. lia.
      * intros x y z H1 H2. apply Z.leb_le. apply Z.leb_le in H1, H2. lia.
    + apply (groupby_grouped Z.eqb Z.leb key Z_eqb_eq rows).
Qed.

(** X6. The rows of the season trend are in strictly increasing order of
    SEASON. *)
Theorem season_trend_increasing (games : list (Games.row num)) :
  StronglySorted Z.lt (map SeasonTrend.SEASON (season_trend games)).
Proof. rewrite season_trend_keys. apply groupby_Z_increasing. Qed.

Lemma home_away_trend_keys (games : list (Games.row num)) :
  map HomeAway.SEASON (home_away_trend games) =
    map SeasonTrend.SEASON (season_trend games).
Proof.
  unfold home_away_trend, season_trend. rewrite !map_map. reflexivity.
Qed.

Lemma map_const {A B : Type} (x : B) (l : list A) :
  map (fun _ => x) l = repeat x (List.length l).
Proof. induction l as [|a r IH]; simpl; [|rewrite IH]; reflexivity. Qed.

(** X7. The long home-versus-away table lists the seasons of the season
    trend twice, in the same order: first with Location "Home" for every
    season, then with Location "Away" for every season. *)
Theorem home_away_long_layout (games : list (Games.row num)) :
  map HomeAwayLong.SEASON (home_away_long games) =
    map SeasonTrend.SEASON (season_trend games)
    ++ map SeasonTrend.SEASON (season_trend games) /\
  map HomeAwayLong.Location (home_away_long games) =
    repeat (Some "Home") (List.length (season_trend games))
    ++ repeat (Some "Away") (List.length (season_trend games)).
Proof.
  rewrite home_away_long_rows, !map_app, !map_map.
  cbn [HomeAwayLong.SEASON HomeAwayLong.Location].
  rewrite home_away_trend_keys, !map_const. split; [reflexivity|].
  rewrite <- (length_map HomeAway.SEASON (home_away_trend games)).
  rewrite home_away_trend_keys, length_map. reflexivity.
Qed.

Lemma filter_filter {A : Type} (p q : A -> bool) (l : list A) :
  filter p (filter q l) = filter (fun x => q x && p x) l.
Proof.
  induction l as [|x r IH]; simpl; [reflexivity|].
  destruct (q x); simpl; [destruct (p x)|]; rewrite ?IH; reflexivity.
Qed.

Lemma team_scores_In (season : Z) (games : list (Games.row num))
      (t : TeamScores.row) :
  In t (team_scores season games) <->
  exists h,
    (exists g, In g games /\ Games.SEASON g = Some season /\
               Games.HOME_TEAM_ID g = Some h) /\
    t = {| TeamScores.HOME_TEAM_ID := h;
           TeamScores.PTS_home :=
             mean (map pts_home
                     (filter (home_in_season season h) games)) |}.
Proof.
  unfold team_scores. rewrite groupby_map_In by apply Z_eqb_eq.
  assert (E : forall h,
            filter (has_key Z.eqb Games.HOME_TEAM_ID h)
              (filter (fun g => ident_eqb (Games.SEASON g) (Some season))
                      games) =
            filter (home_in_season season h) games).
  { intros h. rewrite filter_filter. apply filter_ext. intros g.
    unfold home_in_season, has_key.
    destruct (Games.HOME_TEAM_ID g); reflexivity. }
  split.
  - intros (h & (g & Hg & Hh) & ->). exists h. rewrite E.
    split; [|reflexivity]. apply filter_In in Hg. destruct Hg as [Hg Hs].
    apply ident_eqb_eq in Hs. eauto.
  - intros (h & (g & Hg & Hs & Hh) & ->). exists h. rewrite E.
    split; [|reflexivity]. exists g. split; [|exact Hh].
    apply filter_In. split; [exact Hg|]. apply ident_eqb_eq. exact Hs.
Qed.

(** X8. The team table of a season has one row for every team that is
    the home team of a game of that season, with the mean of PTS_home
    over its home games of the season; the rows are in strictly
    increasing order of HOME_TEAM_ID, and the table is empty exactly when
    no game of the season has a home team.  For three home games of team
    10 in 2021 with the scores 0.1, 0.2 and 0.3 the table of 2021 is the
    one row of team 10 with 0.19999999999999998, and the table of 2020
    is empty. *)
Theorem team_scores_per_team (season : Z) (games : list (Games.row num)) :
  (forall t, In t (team_scores season games) <->
     exists h,
       (exists g, In g games /\ Games.SEASON g = Some season /\
                  Games.HOME_TEAM_ID g = Some h) /\
       t = {| TeamScores.HOME_TEAM_ID := h;
              TeamScores.PTS_home :=
                mean (map pts_home
                        (filter (home_in_season season h) games)) |}) /\
  StronglySorted Z.lt
    (map TeamScores.HOME_TEAM_ID (team_scores season games)) /\
  (team_scores season games = [] <->
   forall g, In g games -> Games.SEASON g = Some season ->
             Games.HOME_TEAM_ID g = None) /\
  (team_scores 2021 (clean_games decimal_to_numeric decimal_games) =
     [ {| TeamScores.HOME_TEAM_ID := 10;
          TeamScores.PTS_home := float_0_2_below |} ] /\
   team_scores 2020 (clean_games decimal_to_numeric decimal_games) = [] /\
   py_float "0.19999999999999998" = Some float_0_2_below).
Proof.
  split; [apply team_scores_In|]. split; [|split; [|repeat split]].
  - unfold team_scores. rewrite map_map. cbn [TeamScores.HOME_TEAM_ID].
    apply groupby_Z_increasing.
  - split.
    + intros E g Hg Hs. destruct (Games.HOME_TEAM_ID g) as [h|] eqn:Hh;
        [|reflexivity].
      exfalso.
      assert (Hin : In {| TeamScores.HOME_TEAM_ID := h;
                          TeamScores.PTS_home :=
                            mean (map pts_home
                                    (filter (home_in_season season h) games)) |}
                       (team_scores season games))
        by (apply team_scores_In; eauto 6).
      rewrite E in Hin. destruct Hin.
    + intros H. destruct (team_scores season games) as [|t l] eqn:E;
        [reflexivity|].
      assert (Hin : In t (team_scores season games))
        by (rewrite E; left; reflexivity).
      apply team_scores_In in Hin.
      destruct Hin as (h & (g & Hg & Hs & Hh) & _).
      rewrite (H g Hg Hs) in Hh. discriminate.
Qed.

Lemma ascii_compare_refl (a : ascii) : Ascii.compare a a = Eq.
Proof. apply N.compare_refl. Qed.

Lemma ascii_compare_lt_trans (a b c : ascii) :
  Ascii.compare a b = Lt -> Ascii.compare b c = Lt -> Ascii.compare a c = Lt.
Proof.
  unfold Ascii.compare. rewrite !N.compare_lt_iff. apply N.lt_trans.
Qed.

Lemma string_compare_lt_trans (a b c : string) :
  String.compare a b = Lt -> String.compare b c = Lt ->
  String.compare a c = Lt.
Proof.
  revert b c. induction a as [|x a IH]; intros [|y b] [|z c]; simpl;
    try discriminate; try reflexivity.
  destruct (Ascii.compare x y) eqn:Exy; try discriminate.
  - apply Ascii.compare_eq_iff in Exy. subst y.
    destruct (Ascii.compare x z); try discriminate; [apply IH | reflexivity].
  - intros _. destruct (Ascii.compare y z) eqn:Eyz; try discriminate.
    + apply Ascii.compare_eq_iff in Eyz. subst z. rewrite Exy. reflexivity.
    + rewrite (ascii_compare_lt_trans x y z Exy Eyz). reflexivity.
Qed.

Lemma order_string : order_with_ties String.compare.
Proof.
  split; [|split].
  - intros a b. apply String.compare_antisym.
  - apply string_compare_lt_trans.
  - intros a b c H. apply String.compare_eq_iff in H. subst. reflexivity.
Qed.

Lemma order_season_conference :
  order_with_ties
    (fun a b : Z * string =>
       match Z.compare (fst a) (fst b) with
       | Eq => String.compare (snd a) (snd b)
       | c => c
       end).
Proof.
  exact (order_lex fst snd Z.compare String.compare order_Z order_string).
Qed.

Lemma pair_leb_cmp (a b : Z * string) :
  pair_leb a b =
    cmp_leb (fun a b : Z * string =>
               match Z.compare (fst a) (fst b) with
               | Eq => String.compare (snd a) (snd b)
               | c => c
               end) a b.
Proof.
  unfold pair_leb, cmp_leb, String.leb.
  destruct (Z.compare_spec (fst a) (fst b)) as [E|E|E].
  - rewrite E, Z.eqb_refl. reflexivity.
  - rewrite (proj2 (Z.eqb_neq _ _)), (proj2 (Z.ltb_lt _ _)) by lia.
    reflexivity.
  - rewrite (proj2 (Z.eqb_neq _ _)), (proj2 (Z.ltb_ge _ _)) by lia.
    reflexivity.
Qed.

Lemma pair_leb_lt (a b : Z * string) :
  pair_leb a b = true -> a <> b -> season_conference_lt a b.
Proof.
  unfold pair_leb, season_conference_lt, String.leb, String.ltb.
  destruct a as [x s], b as [y t]. simpl.
  destruct (Z.eqb_spec x y) as [->|Hne].
  - intros H Hab. right. split; [reflexivity|].
    destruct (String.compare s t) eqn:E; try reflexivity; [|discriminate].
    apply String.compare_eq_iff in E. congruence.
  - intros H _. left. apply Z.ltb_lt. exact H.
Qed.

(** X11. The rows of the conference trend are in strictly increasing
    order of SEASON and, within a season, of the name of the
    conference. *)
Theorem conf_trend_increasing (games : list (Games.row num))
        (ranking : list Ranking.row) :
  StronglySorted season_conference_lt
    (map (fun t => (ConfTrend.SEASON t, ConfTrend.CONFERENCE t))
         (conf_trend games ranking)).
Proof.
  unfold conf_trend. rewrite map_map. simpl.
  rewrite (map_ext _ fst) by (intros [[s c] rs]; reflexivity).
  apply (StronglySorted_impl (fun a b => pair_leb a b = true /\ a <> b)).
  - intros a b [H1 H2]. apply pair_leb_lt; assumption.
  - apply sorted_NoDup_strict.
    + apply groupby_sorted.
      * intros x y. rewrite !pair_leb_cmp.
        apply (cmp_leb_total _ order_season_conference).
      * intros x y z. rewrite !pair_leb_cmp.
        apply (cmp_leb_trans _ order_season_conference).
    + apply (groupby_grouped pair_eqb pair_leb season_conference pair_eqb_eq).
Qed.

(* ================================================================== *)
(** ** Further properties of the joins and of the ranking table *)
(* ================================================================== *)

Section DropDuplicatesFacts.

Context {A : Type}.
Variable eqb : A -> A -> bool.
Hypothesis eqb_eq : forall a b, eqb a b = true <-> a = b.

Lemma existsb_seen (x : A) (seen : list A) :
  existsb (eqb x) seen = true <-> In x seen.
Proof.
  rewrite existsb_exists. split.
  - intros (y & Hy & E). apply eqb_eq in E. subst y. exact Hy.
  - intros H. exists x. split; [exact H | apply eqb_eq; reflexivity].
Qed.

Lemma drop_duplicates_from_length (seen l : list A) :
  (List.length (drop_duplicates_from eqb seen l) <= List.length l)%nat.
Proof.
  revert seen. induction l as [|x r IH]; intros seen; simpl; [lia|].
  destruct (existsb (eqb x) seen); simpl.
  - specialize (IH seen). lia.
  - specialize (IH (x :: seen)). lia.
Qed.

(** Rows that are all different are all kept. *)
Lemma drop_duplicates_from_NoDup (seen l : list A) :
  NoDup l -> (forall x, In x l -> ~ In x seen) ->
  drop_duplicates_from eqb seen l = l.
Proof.
  revert seen. induction l as [|x r IH]; intros seen Hnd Hs; [reflexivity|].
  inversion Hnd as [|? ? Hn Hd]; subst. simpl.
  replace (existsb (eqb x) seen) with false.
  - f_equal. apply IH; [exact Hd|]. intros y Hy [<- | H]; [exact (Hn Hy)|].
    exact (Hs y (or_intror Hy) H).
  - symmetry. apply not_true_iff_false. rewrite existsb_seen.
    apply Hs. left. reflexivity.
Qed.

(** Rows that have been met before add nothing. *)
Lemma drop_duplicates_from_covered (seen l1 l2 : list A) :
  (forall x, In x l2 -> In x seen \/ In x l1) ->
  drop_duplicates_from eqb seen (l1 ++ l2) = drop_duplicates_from eqb seen l1.
Proof.
  revert seen. induction l1 as [|x r IH]; intros seen H; simpl.
  - induction l2 as [|y l IHl]; [reflexivity|]. simpl.
    replace (existsb (eqb y) seen) with true.
    + apply IHl. intros z Hz. apply H. right. exact Hz.
    + symmetry. apply existsb_seen.
      destruct (H y (or_introl eq_refl)) as [Hy|[]]. exact Hy.
  - destruct (existsb (eqb x) seen) eqn:E.
    + apply IH. intros y Hy. destruct (H y Hy) as [Hs|[<- | Hr]]; auto.
      left. apply existsb_seen. exact E.
    + f_equal. apply IH. intros y Hy.
      destruct (H y Hy) as [Hs|[<- | Hr]]; simpl; auto.
Qed.

End DropDuplicatesFacts.

(** X9. The combinations table lists every (TEAM_ID, CONFERENCE,
    SEASON_ID) combination of the ranking table once: it has no two equal
    rows and at most as many rows as the ranking table, it is the
    projection of the ranking table when the combinations are all
    different, and ranking rows whose combination occurred before add
    nothing to it. *)
Theorem team_conf_distinct (ranking : list Ranking.row) :
  NoDup (team_conf ranking) /\
  (forall c, In c (team_conf ranking) <->
             exists r, In r ranking /\ c = combination r) /\
  (List.length (team_conf ranking) <= List.length ranking)%nat /\
  (NoDup (map combination ranking) ->
   team_conf ranking = map combination ranking) /\
  (forall more,
     (forall r, In r more ->
                exists r', In r' ranking /\ combination r = combination r') ->
     team_conf (ranking ++ more) = team_conf ranking).
Proof.
  destruct (team_conf_spec ranking) as [Hnd Hin].
  split; [exact Hnd|]. split; [exact Hin|]. split; [|split].
  - unfold team_conf, drop_duplicates.
    rewrite <- (length_map combination ranking).
    apply drop_duplicates_from_length.
  - intros H. unfold team_conf, drop_duplicates.
    apply (drop_duplicates_from_NoDup TeamConf.eqb TeamConf_eqb_eq);
      [exact H | intros x _ []].
  - intros more H. unfold team_conf, drop_duplicates. rewrite map_app.
    apply (drop_duplicates_from_covered TeamConf.eqb TeamConf_eqb_eq).
    intros c Hc. right. apply in_map_iff in Hc.
    destruct Hc as (r & <- & Hr). destruct (H r Hr) as (r' & Hr' & ->).
    apply in_map. exact Hr'.
Qed.

Lemma conf_games_cons (g : Games.row num) (games : list (Games.row num))
      (ranking : list Ranking.row) :
  conf_games (g :: games) ranking =
    match combinations_of g ranking with
    | [] => [(g, None)]
    | ms => map (fun c => (g, Some c)) ms
    end ++ conf_games games ranking.
Proof. reflexivity. Qed.

(** X10. The join of the games with the combinations keeps every game, in
    the order of the games table: a game whose home team has no
    combination once, and a game whose home team has several once for
    each of them.  With at most one combination per home team the joined
    table has the games of the games table, row for row. *)
Theorem conf_games_left_join (games : list (Games.row num))
        (ranking : list Ranking.row) :
  map fst (conf_games games ranking) =
    flat_map (fun g =>
                repeat g (Nat.max 1 (List.length (combinations_of g ranking))))
             games /\
  (List.length games <= List.length (conf_games games ranking))%nat /\
  ((forall g, In g games ->
              (List.length (combinations_of g ranking) <= 1)%nat) ->
   map fst (conf_games games ranking) = games).
Proof.
  assert (H1 : map fst (conf_games games ranking) =
    flat_map (fun g =>
                repeat g (Nat.max 1 (List.length (combinations_of g ranking))))
             games).
  { induction games as [|g l IH]; [reflexivity|].
    rewrite conf_games_cons, map_app, IH. cbn [flat_map]. f_equal.
    destruct (combinations_of g ranking) as [|c cs]; [reflexivity|].
    rewrite map_map. cbn [fst List.length Nat.max].
    change (map (fun _ => g) (c :: cs) = repeat g (List.length (c :: cs))).
    apply map_const. }
  split; [exact H1|]. split.
  - rewrite <- (length_map fst), H1. clear H1.
    induction games as [|g l IH]; [reflexivity|].
    cbn [flat_map List.length]. rewrite length_app, repeat_length. lia.
  - intros H. rewrite H1. clear H1.
    induction games as [|g l IH]; [reflexivity|]. cbn [flat_map].
    rewrite IH by (intros x Hx; apply H; right; exact Hx).
    specialize (H g (or_introl eq_refl)).
    destruct (List.length (combinations_of g ranking)) as [|[|n]];
      [reflexivity | reflexivity | lia].
Qed.

Lemma flat_map_nil {A B : Type} (F : A -> list B) (l : list A) :
  (forall a, In a l -> F a = []) -> flat_map F l = [].
Proof.
  induction l as [|a r IH]; intros H; [reflexivity|]. cbn [flat_map].
  rewrite (H a (or_introl eq_refl)), IH; [reflexivity|].
  intros b Hb. apply H. right. exact Hb.
Qed.

Lemma flat_map_single {A B : Type} (idf : A -> Z) (G : A -> list B)
      (k : Z) (a0 : A) (l : list A) :
  NoDup (map idf l) -> In a0 l -> idf a0 = k ->
  flat_map (fun a => if Z.eqb (idf a) k then G a else []) l = G a0.
Proof.
  intros Hnd Hin Hk. induction l as [|a r IH]; [destruct Hin|].
  inversion Hnd as [|? ? Hn Hd]; subst. cbn [flat_map].
  destruct Hin as [-> | Hin].
  - rewrite Z.eqb_refl.
    rewrite flat_map_nil; [apply app_nil_r|].
    intros b Hb. destruct (Z.eqb_spec (idf b) (idf a0)) as [E|]; [|reflexivity].
    exfalso. apply Hn. rewrite <- E. apply in_map. exact Hb.
  - replace (Z.eqb (idf a) (idf a0)) with false; [exact (IH Hd Hin)|].
    symmetry. apply Z.eqb_neq. intros E. apply Hn. rewrite E.
    apply in_map. exact Hin.
Qed.

Lemma filter_flat_map {A B : Type} (p : B -> bool) (F : A -> list B)
      (l : list A) :
  filter p (flat_map F l) = flat_map (fun a => filter p (F a)) l.
Proof.
  induction l as [|a r IH]; [reflexivity|]. cbn [flat_map].
  rewrite filter_app, IH. reflexivity.
Qed.

Lemma player_means_NoDup (game_details : list (Details.row float float)) :
  NoDup (map PlayerMeans.PLAYER_ID (player_means game_details)).
Proof.
  unfold player_means. rewrite map_map. cbn [PlayerMeans.PLAYER_ID].
  apply (groupby_grouped Z.eqb Z.leb Details.PLAYER_ID Z_eqb_eq).
Qed.

(** X12. The rows of the player stats view for one player are the rows of
    the players table with the PLAYER_ID of the player, in the order of
    that table, each with the same means of the player; there is none
    when the player has no cleaned game-details row.  For the three rows
    of player 201 with the durations 25:32, 22:54 and 36:22 the one row
    of the player has 28.266666666666666 minutes, and player 202 has no
    row. *)
Theorem player_stats_rows_of_player
        (game_details : list (Details.row float float))
        (players : list Players.row) (k : Z) :
  filter (fun mp => Z.eqb (PlayerMeans.PLAYER_ID (fst mp)) k)
         (player_stats game_details players) =
    (if existsb (of_player k) game_details
     then map (pair (means_of k game_details))
              (filter (fun p => ident_eqb (Some k) (Players.PLAYER_ID p))
                      players)
     else []) /\
  (filter (fun mp => Z.eqb (PlayerMeans.PLAYER_ID (fst mp)) 201)
          (player_stats minutes_rows scenario_players) =
     [ (minutes_means, first_player) ] /\
   filter (fun mp => Z.eqb (PlayerMeans.PLAYER_ID (fst mp)) 202)
          (player_stats minutes_rows scenario_players) = [] /\
   PlayerMeans.MIN minutes_means = float_28_27_below /\
   py_float "28.266666666666666" = Some float_28_27_below).
Proof.
  split; [|repeat split].
  unfold player_stats, merge_inner. rewrite filter_flat_map.
  rewrite (flat_map_ext _
    (fun m => if Z.eqb (PlayerMeans.PLAYER_ID m) k
              then map (pair m)
                     (filter (fun p => ident_eqb
                                (Some (PlayerMeans.PLAYER_ID m))
                                (Players.PLAYER_ID p)) players)
              else [])).
  - destruct (existsb (of_player k) game_details) eqn:E.
    + apply existsb_exists in E. destruct E as (d & Hd & Hk).
      apply (has_key_iff Z.eqb Details.PLAYER_ID Z_eqb_eq) in Hk.
      rewrite (flat_map_single PlayerMeans.PLAYER_ID _ k
                 (means_of k game_details));
        [reflexivity | apply player_means_NoDup | | reflexivity].
      apply player_means_In. exists k. split; [eauto | reflexivity].
    + apply flat_map_nil. intros m Hm. apply player_means_In in Hm.
      destruct Hm as (p & (d & Hd & Hp) & ->).
      cbn [PlayerMeans.PLAYER_ID means_of].
      destruct (Z.eqb_spec p k) as [->|]; [|reflexivity].
      exfalso. apply not_true_iff_false in E. apply E.
      apply existsb_exists. exists d. split; [exact Hd|].
      apply (has_key_iff Z.eqb Details.PLAYER_ID Z_eqb_eq). exact Hp.
  - intros m. destruct (Z.eqb (PlayerMeans.PLAYER_ID m) k) eqn:E.
    + apply filter_all. intros x Hx. apply in_map_iff in Hx.
      destruct Hx as (p & <- & _). exact E.
    + apply filter_nil. intros x Hx. apply in_map_iff in Hx.
      destruct Hx as (p & <- & _). exact E.
Qed.

Lemma add_comm (x y : float) : add x y = add y x.
Proof.
  unfold add, SFadd.
  destruct x as [sx|sx| |sx mx ex], y as [sy|sy| |sy my ey];
    try reflexivity; try (destruct sx, sy; reflexivity).
  rewrite (Z.min_comm ey ex), Z.add_comm. reflexivity.
Qed.

Lemma num_add_comm (a b : num) : num_add a b = num_add b a.
Proof.
  destruct a as [x|x], b as [y|y]; simpl;
    [rewrite Z.add_comm | rewrite add_comm ..]; reflexivity.
Qed.

Section GroupByMap.

Context {K R R' : Type}.
Variable eqb : K -> K -> bool.
Variable leb : K -> K -> bool.
Variable key : R -> option K.
Variable key' : R' -> option K.
Variable h : R -> R'.
Hypothesis key_h : forall r, key' (h r) = key r.

Lemma add_to_group_map (k : K) (r : R) (gs : list (K * list R)) :
  add_to_group eqb k (h r) (map (map_group h) gs) =
    map (map_group h) (add_to_group eqb k r gs).
Proof.
  induction gs as [|[k0 rs] gs IH]; [reflexivity|]. simpl.
  destruct (eqb k k0); simpl.
  - unfold map_group. simpl. rewrite map_app. reflexivity.
  - rewrite IH. reflexivity.
Qed.

Lemma group_rows_map_from (rows : list R) (gs : list (K * list R)) :
  fold_left (group_step eqb key') (map h rows) (map (map_group h) gs) =
    map (map_group h) (fold_left (group_step eqb key) rows gs).
Proof.
  revert gs. induction rows as [|r rows IH]; intros gs; [reflexivity|].
  simpl. rewrite <- IH. f_equal. unfold group_step. rewrite key_h.
  destruct (key r); [apply add_to_group_map | reflexivity].
Qed.

Lemma insert_map_group (x : K * list R) (l : list (K * list R)) :
  insert (fun a b => leb (fst a) (fst b)) (map_group h x)
         (map (map_group h) l) =
    map (map_group h) (insert (fun a b => leb (fst a) (fst b)) x l).
Proof.
  induction l as [|y r IH]; [reflexivity|]. simpl.
  destruct (leb (fst x) (fst y)); simpl; [reflexivity|].
  rewrite IH. reflexivity.
Qed.

(** A change of the rows that keeps their keys goes through the
    grouping. *)
Lemma groupby_map (rows : list R) :
  groupby eqb leb key' (map h rows) =
    map (map_group h) (groupby eqb leb key rows).
Proof.
  unfold groupby, group_rows.
  pose proof (group_rows_map_from rows []) as E. cbn [map] in E. rewrite E.
  clear E.
  induction (fold_left (group_step eqb key) rows []) as [|x l IH];
    [reflexivity|].
  simpl. rewrite IH. apply insert_map_group.
Qed.

End GroupByMap.

(** X13. The total of a game does not depend on which of the two scores
    is the home score: with the scores of every game exchanged, the
    season trend is the same. *)
Theorem season_trend_symmetric (games : list (Games.row num)) :
  (forall g, TOTAL_POINTS (swap_scores g) = TOTAL_POINTS g) /\
  season_trend (map swap_scores games) = season_trend games.
Proof.
  assert (H : forall g, TOTAL_POINTS (swap_scores g) = TOTAL_POINTS g)
    by (intros g; apply num_add_comm).
  split; [exact H|]. unfold season_trend.
  rewrite (groupby_map Z.eqb Z.leb Games.SEASON Games.SEASON swap_scores)
    by reflexivity.
  rewrite map_map. apply map_ext. intros [s rs]. unfold map_group. simpl.
  rewrite map_map. f_equal. f_equal. apply map_ext. intros g.
  unfold total_points. rewrite H. reflexivity.
Qed.

Lemma stable_sort_sorted_id {A : Type} (leb : A -> A -> bool) (l : list A) :
  StronglySorted (fun a b => leb a b = true) l -> stable_sort leb l = l.
Proof.
  induction 1 as [|x r _ IH Hx]; [reflexivity|]. simpl. rewrite IH.
  destruct Hx as [|y r' Hy _]; [reflexivity|]. simpl. rewrite Hy.
  reflexivity.
Qed.

(** X14. A ranking table that is loaded in leaderboard order is displayed
    as it is, restricted to its five columns. *)
Theorem ranking_table_of_sorted (ranking : list Ranking.row) :
  StronglySorted leaderboard_order (map select_ranking ranking) ->
  ranking_table ranking = map select_ranking ranking.
Proof.
  intros H. unfold ranking_table. apply stable_sort_sorted_id.
  apply (StronglySorted_impl leaderboard_order); [|exact H].
  intros a b. apply ranking_leb_leaderboard.
Qed.

Lemma ranking_table_of_sorted_witness :
  ranking_table scenario_ranking = map select_ranking scenario_ranking.
Proof.
  apply ranking_table_of_sorted.
  repeat constructor; right; split; try reflexivity; right; reflexivity.
Defined.

(* ================================================================== *)
(** ** Rows with a missing key, tables without a match *)
(* ================================================================== *)

Lemma group_rows_nulls {K R : Type} (eqb : K -> K -> bool)
      (key : R -> option K) (l1 m l2 : list R) :
  (forall r, In r m -> key r = None) ->
  group_rows eqb key (l1 ++ m ++ l2) = group_rows eqb key (l1 ++ l2).
Proof.
  revert l1. induction m as [|r m IH]; intros l1 H; [reflexivity|].
  cbn [app]. rewrite group_rows_null by (apply H; left; reflexivity).
  apply IH. intros x Hx. apply H. right. exact Hx.
Qed.

Lemma groupby_nulls {K R : Type} (eqb leb : K -> K -> bool)
      (key : R -> option K) (l1 m l2 : list R) :
  (forall r, In r m -> key r = None) ->
  groupby eqb leb key (l1 ++ m ++ l2) = groupby eqb leb key (l1 ++ l2).
Proof.
  intros H. unfold groupby. rewrite group_rows_nulls by exact H. reflexivity.
Qed.

Lemma merge_left_fst {L R : Type} (on : L -> R -> bool)
      (left : list L) (right : list R) (j : L * option R) :
  In j (merge_left on left right) -> In (fst j) left.
Proof.
  unfold merge_left. rewrite in_flat_map. intros (l & Hl & H).
  destruct (filter (on l) right) as [|m ms].
  - destruct H as [<- | []]. exact Hl.
  - apply in_map_iff in H. destruct H as (r & <- & _). exact Hl.
Qed.

Lemma conf_games_app (g1 g2 : list (Games.row num))
      (ranking : list Ranking.row) :
  conf_games (g1 ++ g2) ranking =
    conf_games g1 ranking ++ conf_games g2 ranking.
Proof. apply merge_left_app. Qed.

(** X16. A game without SEASON is in no row of the season trend, of the
    long home-versus-away table, of the conference trend and of the team
    table: these are the same with the game taken out of the games
    table. *)
Theorem game_without_season_ignored (g1 g2 : list (Games.row num))
        (g : Games.row num) (ranking : list Ranking.row) (season : Z) :
  Games.SEASON g = None ->
  season_trend (g1 ++ g :: g2) = season_trend (g1 ++ g2) /\
  home_away_long (g1 ++ g :: g2) = home_away_long (g1 ++ g2) /\
  conf_trend (g1 ++ g :: g2) ranking = conf_trend (g1 ++ g2) ranking /\
  team_scores season (g1 ++ g :: g2) = team_scores season (g1 ++ g2).
Proof.
  intros H. split; [|split; [|split]].
  - unfold season_trend. rewrite groupby_null by exact H. reflexivity.
  - unfold home_away_long, home_away_trend.
    rewrite groupby_null by exact H. reflexivity.
  - unfold conf_trend. change (g :: g2) with ([g] ++ g2).
    rewrite !conf_games_app, groupby_nulls; [reflexivity|].
    intros j Hj. apply merge_left_fst in Hj. destruct Hj as [E | []].
    unfold season_conference. rewrite <- E, H. reflexivity.
  - unfold team_scores. rewrite !filter_app. cbn [filter].
    rewrite H. reflexivity.
Qed.

Lemma game_without_season_ignored_witness :
  season_trend
    ([] ++ {| Games.GAME_ID := Some 3; Games.HOME_TEAM_ID := Some 10;
              Games.SEASON := None;
              Games.PTS_home := Int 99; Games.PTS_away := Int 98 |} :: [])
  = season_trend ([] ++ []).
Proof.
  apply (game_without_season_ignored [] [] _ scenario_ranking 2020).
  reflexivity.
Defined.

(** X17. A cleaned game-details row without PLAYER_ID is in no row of the
    player stats view: the view is the same with the row taken out. *)
Theorem detail_without_player_ignored
        (d1 d2 : list (Details.row float float))
        (d : Details.row float float) (players : list Players.row) :
  Details.PLAYER_ID d = None ->
  player_stats (d1 ++ d :: d2) players = player_stats (d1 ++ d2) players.
Proof.
  intros H. unfold player_stats, player_means.
  rewrite groupby_null by exact H. reflexivity.
Qed.

Lemma detail_without_player_ignored_witness :
  player_stats
    ([] ++ {| Details.GAME_ID := Some 1; Details.PLAYER_ID := None;
              Details.MIN := of_Z 30; Details.PTS := of_Z 21;
              Details.AST := of_Z 4; Details.REB := of_Z 7 |} :: [])
    scenario_players
  = player_stats ([] ++ []) scenario_players.
Proof. apply detail_without_player_ignored. reflexivity. Defined.

(** X15. When no home team of the games table has a row in the ranking
    table, the conference trend is empty. *)
Theorem conf_trend_without_match (games : list (Games.row num))
        (ranking : list Ranking.row) :
  (forall g r, In g games -> In r ranking ->
               Games.HOME_TEAM_ID g <> Ranking.TEAM_ID r) ->
  conf_trend games ranking = [].
Proof.
  induction games as [|g l IH]; intros H; [reflexivity|].
  change (g :: l) with ([] ++ g :: l).
  rewrite conf_trend_unmatched.
  - apply IH. intros x r Hx. apply H. right. exact Hx.
  - intros r. apply H. left. reflexivity.
Qed.

Lemma conf_trend_without_match_witness :
  conf_trend
    [ {| Games.GAME_ID := Some 1; Games.HOME_TEAM_ID := Some 10;
         Games.SEASON := Some 2020;
         Games.PTS_home := Int 110; Games.PTS_away := Int 105 |};
      {| Games.GAME_ID := Some 2; Games.HOME_TEAM_ID := None;
         Games.SEASON := Some 2020;
         Games.PTS_home := Int 99; Games.PTS_away := Int 101 |} ]
    [ {| Ranking.TEAM_ID := Some 11; Ranking.SEASON_ID := Some 22020;
         Ranking.CONFERENCE := Some "West"; Ranking.W := 36;
         Ranking.L := 36; Ranking.W_PCT := of_Z 1 |} ] = [].
Proof.
  apply conf_trend_without_match.
  intros g r [<- | [<- | []]] [<- | []]; discriminate.
Defined.

(* ================================================================== *)
(** ** A sign in front of the minutes *)
(* ================================================================== *)

Lemma binary_round_aux_opp (mx ex : Z) (lx : location) :
  binary_round_aux prec emax true mx ex lx =
    opp (binary_round_aux prec emax false mx ex lx).
Proof.
  unfold binary_round_aux.
  destruct (shr_fexp prec emax mx ex lx) as [mrs' e'].
  destruct (shr_fexp prec emax _ e' loc_Exact) as [mrs'' e''].
  destruct (shr_m mrs''); try reflexivity.
  destruct (Z.leb e'' (emax - prec)); reflexivity.
Qed.

Lemma of_decimal_negative_int (n : nat) :
  of_decimal true (Z.of_nat n) (0 - 0) = opp (of_nat n).
Proof.
  unfold of_nat, of_Z, of_decimal.
  destruct (Z.of_nat n) as [|p|p] eqn:E; [reflexivity | | lia].
  simpl. rewrite Pos.mul_1_r. unfold binary_round.
  destruct (shl_align p 0 _) as [mz ez]. apply binary_round_aux_opp.
Qed.

(** [float] of a numeral with a minus sign is the opposite of its
    value. *)
Lemma py_float_minus_text (d : Decimal.uint) :
  d <> Decimal.Nil ->
  py_float (String "-" (Numeral.text d)) =
    Some (opp (of_nat (Numeral.value d))).
Proof.
  intros Hd. unfold py_float. cbn [list_ascii_of_string].
  rewrite NumeralFacts.strip_id
    by (constructor; [reflexivity | apply NumeralFacts.text_no_space]).
  cbn [sign].
  rewrite !NumeralFacts.is_word_text by (assumption || reflexivity).
  cbn [orb]. unfold number.
  rewrite (NumeralFacts.digitpart_text d Hd).
  cbn [exponent List.length Z.of_nat].
  rewrite app_nil_r, NumeralFacts.digits_value_text, of_decimal_negative_int.
  reflexivity.
Qed.

(** X18. A minus sign in front of the minutes applies to the minutes
    only: for two numerals [m] and [s], [convert_minutes] gives
    [- float(m) + float(s) / 60] on the text "-m:s", so that the seconds
    are added to the negative minutes. *)
Theorem convert_minutes_negative_minutes (f : string -> num)
        (dm ds : Decimal.uint) :
  dm <> Decimal.Nil -> ds <> Decimal.Nil ->
  convert_minutes f
    (CStr (String "-" (Numeral.text dm) ++ String ":" (Numeral.text ds))%string)
  = Ok (add (opp (of_nat (Numeral.value dm)))
            (div (of_nat (Numeral.value ds)) (of_Z 60))).
Proof.
  intros Hm Hs.
  rewrite (convert_minutes_split f _ (String "-" (Numeral.text dm))
             (Numeral.text ds)).
  - rewrite py_float_minus_text, NumeralFacts.py_float_text by assumption.
    reflexivity.
  - apply PyStrFacts.split_first_append. simpl.
    apply NumeralFacts.text_no_colon.
Qed.

Lemma convert_minutes_negative_minutes_witness :
  convert_minutes decimal_to_numeric (CStr "-1:30") =
    Ok (S754_finite true 4503599627370496 (-53)).
Proof.
  exact (convert_minutes_negative_minutes decimal_to_numeric
           (Decimal.D1 Decimal.Nil) (Decimal.D3 (Decimal.D0 Decimal.Nil))
           ltac:(discriminate) ltac:(discriminate)).
Defined.
